(** * mcp-filesystem: ignore matcher, recursive watcher and registry synchronizer

    A shallow embedding of
    - [internal/gitignore/gitignore.go]  (module [gitignore]),
    - the watcher package               (module [watcher]),
    - the resource manager              (module [resources]),
    - [internal/server/server.go]        (module [server]),
    together with the parts of the Go standard library ([strings],
    [path/filepath], Unix build) and of fsnotify that this code calls.

    Go strings are byte strings; they are modelled by [string] (a list of
    8-bit [ascii]).  Go maps [map[string]bool] are modelled by
    [gmap string bool]; reading an absent key yields [false], as in Go. *)

From Stdlib Require Import ZArith String Ascii Bool.
From stdpp Require Import base option list gmap strings.

Local Open Scope string_scope.

(** ** Control: a Go call either returns or panics *)

Inductive exec (A : Type) : Type :=
| Done (a : A)
| Panicked.
Arguments Done {A} a.
Arguments Panicked {A}.

Definition exec_bind {A B} (c : exec A) (k : A → exec B) : exec B :=
  match c with
  | Done a => k a
  | Panicked => Panicked
  end.

(** Go's [error] values, as far as this program tells them apart: the
    sentinel [filepath.SkipDir] and every other error, with its text.  A
    nil-able [error] is an [option error]. *)
Inductive error : Type :=
| SkipDir
| Err (msg : string).

Global Instance error_eq_dec : EqDecision error.
Proof. solve_decision. Defined.

(** Code that updates a receiver and may panic: a state monad over [exec].
    The state [S] is the struct behind the method's pointer receiver. *)
Definition M (S A : Type) : Type := S → exec (A * S).

Definition ret {S A} (a : A) : M S A := λ s, Done (a, s).

Definition bind {S A B} (c : M S A) (k : A → M S B) : M S B :=
  λ s, match c s with
       | Done (a, s') => k a s'
       | Panicked => Panicked
       end.

Definition lift {S A} (c : exec A) : M S A :=
  λ s, match c with
       | Done a => Done (a, s)
       | Panicked => Panicked
       end.

(** A method that cannot panic, as a state transformer. *)
Definition call {S A} (f : S → A * S) : M S A := λ s, Done (f s).

Notation "'let!' x ':=' c 'in' k" := (bind c (λ x, k))
  (at level 10, x name, c at level 100, k at level 200).

(** ** Package strings *)

Module strings.

(** [strings.HasPrefix(s, prefix)] *)
Definition HasPrefix (s prefix : string) : bool := String.prefix prefix s.

(** [s[i]]: indexing a string panics out of range. *)
Definition index (s : string) (i : nat) : exec ascii :=
  match String.get i s with
  | Some c => Done c
  | None => Panicked
  end.

(** [strings.Split(s, "\n")]: the lines of [s]; always at least one. *)
Fixpoint split_on (c : ascii) (s : string) : list string :=
  match s with
  | EmptyString => [EmptyString]
  | String a rest =>
      if Ascii.eqb a c then EmptyString :: split_on c rest
      else match split_on c rest with
           | [] => [String a EmptyString]
           | hd :: tl => String a hd :: tl
           end
  end.

Definition newline : ascii := ascii_of_nat 10.

Definition SplitLines (s : string) : list string := split_on newline s.

(** [strings.Join(elems, sep)] *)
Fixpoint Join (elems : list string) (sep : string) : string :=
  match elems with
  | [] => ""
  | [e] => e
  | e :: rest => e +:+ sep +:+ Join rest sep
  end.

End strings.

(** ** Package os: what the file system reports *)

Module os.

(** [os.FileInfo], as far as the program reads it. *)
Record FileInfo := { IsDir : bool }.

(** The file tree below a path, as [Lstat] and directory reads report it
    during one walk: a non-directory, a directory with the outcome of
    reading its names (an error, or the entries in lexical order), or a
    path whose [Lstat] fails. *)
Local Unset Elimination Schemes.
Inductive Node : Type :=
| File
| Dir (readErr : option error) (entries : list (string * Node))
| Missing (err : error).
Local Set Elimination Schemes.

(** The operating system at one moment.  [None] is a non-nil error. *)
Record World := {
  Stat : string → option FileInfo;
  ReadFile : string → string + error;
  Tree : string → Node;
  Getwd : option string;
}.

End os.

(** ** Package path/filepath (Unix: the separator is '/', no volume names) *)

Module filepath.

Definition Separator : ascii := "/"%char.

Definition IsPathSeparator (c : ascii) : bool := Ascii.eqb c Separator.

(** The last element: the longest suffix without a separator. *)
Fixpoint last_elem (s : string) : string :=
  match s with
  | EmptyString => EmptyString
  | String a rest =>
      if existsb IsPathSeparator (list_ascii_of_string s)
      then last_elem rest
      else s
  end.

(** The loop [for len(path) > 0 && IsPathSeparator(path[len(path)-1])]. *)
Fixpoint strip_trailing (s : string) : string :=
  match s with
  | EmptyString => EmptyString
  | String a rest =>
      if forallb IsPathSeparator (list_ascii_of_string s)
      then EmptyString
      else String a (strip_trailing rest)
  end.

(** [filepath.Base]. *)
Definition Base (path : string) : string :=
  if String.eqb path "" then "."
  else
    let path := strip_trailing path in
    let path := last_elem path in
    if String.eqb path "" then String Separator EmptyString
    else path.

(** [filepath.IsAbs]. *)
Definition IsAbs (path : string) : bool := strings.HasPrefix path "/".

(** One step of the loop of [Clean], on the path element [e], with the
    elements written so far in [out] (last written first).  The buffer
    can be backtracked ([out.w > dotdot]) exactly when its last element
    is not part of the leading run of [..] elements. *)
Definition clean_step (rooted : bool) (out : list string) (e : string)
  : list string :=
  if String.eqb e "" then out                (* empty path element *)
  else if String.eqb e "." then out          (* . element *)
  else if String.eqb e ".." then             (* .. element *)
    match out with
    | top :: below =>
        if String.eqb top ".." then
          if rooted then out else e :: out
        else below                           (* can backtrack *)
    | [] => if rooted then out else [e]      (* cannot backtrack *)
    end
  else e :: out.                             (* real path element *)

(** [filepath.Clean]. *)
Definition Clean (path : string) : string :=
  if String.eqb path "" then "."
  else
    let rooted := IsAbs path in
    let out := fold_left (clean_step rooted)
                 (strings.split_on Separator path) [] in
    let body := strings.Join (rev out) "/" in
    if rooted then "/" +:+ body
    else if String.eqb body "" then "." else body.

(** [filepath.Join] of two elements. *)
Definition Join (a b : string) : string :=
  if negb (String.eqb a "") then Clean (a +:+ "/" +:+ b)
  else if negb (String.eqb b "") then Clean b
  else "".

(** [filepath.ToSlash]: the identity where the separator is '/'. *)
Definition ToSlash (path : string) : string := path.

(** [filepath.Abs]; [None] is a non-nil error. *)
Definition Abs (w : os.World) (path : string) : option string :=
  if IsAbs path then Some (Clean path)
  else
    match os.Getwd w with
    | Some wd => Some (Join wd path)
    | None => None
    end.

End filepath.

(** [filepath.Walk] and its helper [walk], over the tree the operating
    system reports.  [walkFn] is called as [walkFn path info err]. *)
Module walking.

Definition WalkFunc (S : Type) : Type :=
  string → option os.FileInfo → option error → M S (option error).

Definition dirInfo : os.FileInfo := {| os.IsDir := true |}.
Definition fileInfo : os.FileInfo := {| os.IsDir := false |}.

Section walk.
Context {S : Type} (walkFn : WalkFunc S).

Fixpoint walk (path : string) (n : os.Node) {struct n}
  : M S (option error) :=
  match n with
  | os.Missing err =>
      (* reached from the callers' [Lstat] failure branch *)
      walkFn path None (Some err)
  | os.File => walkFn path (Some fileInfo) None
  | os.Dir readErr entries =>
      let! err1 := walkFn path (Some dirInfo) readErr in
      match readErr, err1 with
      | None, None =>
          (fix names (l : list (string * os.Node)) : M S (option error) :=
             match l with
             | [] => ret None
             | (name, child) :: rest =>
                 let filename := filepath.Join path name in
                 let! err := walk filename child in
                 match child, err with
                 | _, None => names rest
                 | os.Missing _, Some SkipDir => names rest
                 | os.Dir _ _, Some SkipDir => names rest
                 | _, Some e => ret (Some e)
                 end
             end) entries
      | _, _ => ret err1
      end
  end.

Definition Walk (w : os.World) (root : string) : M S (option error) :=
  let! err := walk root (os.Tree w root) in
  match err with
  | Some SkipDir => ret None
  | _ => ret err
  end.
End walk.

End walking.

(** ** Package fsnotify: the raw event source *)

Module fsnotify.

(** [fsnotify.Op] is a [uint32] bit mask. *)
Definition Op : Type := Z.
Definition Create : Op := 1%Z.
Definition Write : Op := 2%Z.
Definition Remove : Op := 4%Z.
Definition Rename : Op := 8%Z.
Definition Chmod : Op := 16%Z.

(** [op & mask != 0] *)
Definition has (op mask : Op) : bool := negb (Z.land op mask =? 0)%Z.

Record Event := { Name : string; Op_ : Op }.

(** Calls on the watcher, in order, and how the watcher answers a call
    given the calls made before it. *)
Inductive Call : Type :=
| AddCall (path : string)
| RemoveCall (path : string).

Record Watcher := {
  calls : list Call;
  reply : list Call → Call → option error;
}.

(** [fsnotify.NewWatcher()], when it succeeds: no call made yet. *)
Definition NewWatcher (reply : list Call → Call → option error) : Watcher :=
  {| calls := []; reply := reply |}.

Definition invoke (c : Call) (w : Watcher) : option error * Watcher :=
  (reply w (calls w) c, {| calls := calls w ++ [c]; reply := reply w |}).

Definition Add (path : string) := invoke (AddCall path).
Definition Remove_ (path : string) := invoke (RemoveCall path).

End fsnotify.

(** ** Package go-gitignore: a compiled pattern set, by what it matches *)

Module ignore.
Record GitIgnore := { MatchesPath : string → bool }.
End ignore.

(** Library functions taken as given: [filepath.Rel] ([None] is a non-nil
    error) and go-gitignore's [CompileIgnoreLines]. *)
Class GoLibs := {
  Rel : string → string → option string;
  CompileIgnoreLines : list string → ignore.GitIgnore;
}.

(** ** internal/gitignore *)

Module gitignore.

Record Matcher := {
  ignore_ : option ignore.GitIgnore;    (* nil-able pointer *)
  workspacePath : string;
  hasGitIgnore : bool;
  defaultIgnores : list string;
}.

Section defs.
Context `{!GoLibs}.

Definition NewMatcher (w : os.World) (workspacePath : string)
  : Matcher + error :=
  let defaultIgnores := [".git/"; ".DS_Store"; "node_modules/"] in
  let gitignorePath := filepath.Join workspacePath ".gitignore" in
  match os.Stat w gitignorePath with
  | Some _ =>
      match os.ReadFile w gitignorePath with
      | inr err => inr err
      | inl data =>
          let ignoreObj := CompileIgnoreLines (strings.SplitLines data) in
          inl {| ignore_ := Some ignoreObj;
                 workspacePath := workspacePath;
                 hasGitIgnore := true;
                 defaultIgnores := defaultIgnores |}
      end
  | None =>
      inl {| ignore_ := None;
             workspacePath := workspacePath;
             hasGitIgnore := false;
             defaultIgnores := defaultIgnores |}
  end.

(** The loop over [m.defaultIgnores]. *)
Fixpoint matchesDefault (relPath : string) (patterns : list string) : bool :=
  match patterns with
  | [] => false
  | pattern :: rest =>
      if strings.HasPrefix relPath pattern || String.eqb relPath pattern
      then true
      else matchesDefault relPath rest
  end.

Definition ShouldIgnore (m : Matcher) (path : string) : exec bool :=
  exec_bind (strings.index (filepath.Base path) 0) (λ c,
    if Ascii.eqb c "."%char then Done true
    else
      match Rel (workspacePath m) path with
      | None => Done false
      | Some relPath =>
          let relPath := filepath.ToSlash relPath in
          if matchesDefault relPath (defaultIgnores m) then Done true
          else if hasGitIgnore m then
            match ignore_ m with
            | Some gi => Done (ignore.MatchesPath gi relPath)
            | None => Panicked           (* nil pointer dereference *)
            end
          else Done false
      end).

Definition ShouldIgnoreDir (m : Matcher) (path : string) : exec bool :=
  if String.eqb path (workspacePath m) then Done false
  else ShouldIgnore m path.
End defs.

End gitignore.

(** Reading a [map[string]bool]: an absent key reads as [false]. *)
Definition mapget (m : gmap string bool) (k : string) : bool :=
  default false (m !! k).

(** ** The watcher package *)

Module watcher.

(** Event types for file system changes ([int] constants, by [iota]). *)
Definition EventCreate : Z := 0.
Definition EventModify : Z := 1.
Definition EventDelete : Z := 2.

Record FileEvent := { Path : string; EventType : Z }.

(** [events] holds the values handed over on the channel, oldest first;
    [done] tells whether the channel [done] has been closed.  The mutex
    is not modelled: the methods below run one at a time. *)
Record FileWatcher := {
  workspacePath : string;
  matcher : gitignore.Matcher;
  watcher : fsnotify.Watcher;
  events : list FileEvent;
  done : bool;
  watchedDirs : gmap string bool;
  debug : bool;
}.

Definition with_watcher (w : fsnotify.Watcher) (fw : FileWatcher) :=
  {| workspacePath := workspacePath fw; matcher := matcher fw;
     watcher := w; events := events fw; done := done fw;
     watchedDirs := watchedDirs fw; debug := debug fw |}.

Definition with_watchedDirs (d : gmap string bool) (fw : FileWatcher) :=
  {| workspacePath := workspacePath fw; matcher := matcher fw;
     watcher := watcher fw; events := events fw; done := done fw;
     watchedDirs := d; debug := debug fw |}.

Definition with_events (l : list FileEvent) (fw : FileWatcher) :=
  {| workspacePath := workspacePath fw; matcher := matcher fw;
     watcher := watcher fw; events := l; done := done fw;
     watchedDirs := watchedDirs fw; debug := debug fw |}.

Definition with_done (b : bool) (fw : FileWatcher) :=
  {| workspacePath := workspacePath fw; matcher := matcher fw;
     watcher := watcher fw; events := events fw; done := b;
     watchedDirs := watchedDirs fw; debug := debug fw |}.

(** What the event loop receives, one [select] at a time. *)
Inductive Input : Type :=
| Cancel                      (* [ctx.Done()] or [fw.done] fires *)
| EventsClosed
| ErrorsClosed
| RawError (err : error)
| RawEvent (event : fsnotify.Event) (w : os.World) (selectDone : bool).

Section defs.
Context `{!GoLibs}.

(** [nw] is the outcome of [fsnotify.NewWatcher()]: an error, or how
    the new watcher will answer. *)
Definition NewFileWatcher (w : os.World)
    (nw : (list fsnotify.Call → fsnotify.Call → option error) + error)
    (workspacePath : string) (debug : bool) : FileWatcher + error :=
  match gitignore.NewMatcher w workspacePath with
  | inr err => inr err
  | inl matcher =>
      match nw with
      | inr err => inr err
      | inl reply =>
          inl {| workspacePath := workspacePath; matcher := matcher;
                 watcher := fsnotify.NewWatcher reply;
                 events := []; done := false;
                 watchedDirs := ∅; debug := debug |}
      end
  end.

Definition startWatching (path : string) (fw : FileWatcher)
  : option error * FileWatcher :=
  if mapget (watchedDirs fw) path then (None, fw)
  else
    match fsnotify.Add path (watcher fw) with
    | (Some err, w) => (Some err, with_watcher w fw)
    | (None, w) =>
        (None, with_watchedDirs (<[path := true]> (watchedDirs fw))
                 (with_watcher w fw))
    end.

Definition stopWatching (path : string) (fw : FileWatcher) : FileWatcher :=
  if mapget (watchedDirs fw) path then
    let '(_, w) := fsnotify.Remove_ path (watcher fw) in
    with_watchedDirs (delete path (watchedDirs fw)) (with_watcher w fw)
  else fw.

Definition Stop (fw : FileWatcher) : FileWatcher := with_done true fw.

(** [fw.matcher.ShouldIgnore(path)] and [ShouldIgnoreDir], on the receiver. *)
Definition shouldIgnore (path : string) : M FileWatcher bool :=
  λ fw, lift (gitignore.ShouldIgnore (matcher fw) path) fw.

Definition shouldIgnoreDir (path : string) : M FileWatcher bool :=
  λ fw, lift (gitignore.ShouldIgnoreDir (matcher fw) path) fw.

(** [info.IsDir()]; a nil [info] panics. *)
Definition isDirOf {S} (info : option os.FileInfo) : M S bool :=
  match info with
  | Some i => ret (os.IsDir i)
  | None => λ _, Panicked
  end.

(** The function literal of [scanWorkspace]. *)
Definition scanFn : walking.WalkFunc FileWatcher :=
  λ path info err,
    match err with
    | Some e => ret (Some e)
    | None =>
        let! d := isDirOf info in
        if d then
          let! ign := shouldIgnoreDir path in
          if ign then ret (Some SkipDir)
          else
            let! err := call (startWatching path) in
            match err with
            | Some e => ret (Some e)
            | None => ret None
            end
        else ret None
    end.

Definition scanWorkspace (w : os.World) : M FileWatcher (option error) :=
  λ fw, walking.Walk scanFn w (workspacePath fw) fw.

(** The function literal of the walk in [handleFsEvent]. *)
Definition subdirFn (eventName : string) : walking.WalkFunc FileWatcher :=
  λ path info err,
    match err with
    | Some _ => ret None
    | None =>
        let! d := isDirOf info in
        if d && negb (String.eqb path eventName) then
          let! ign := shouldIgnoreDir path in
          if ign then ret (Some SkipDir)
          else
            let! _ := call (startWatching path) in
            ret None
        else ret None
    end.

(** The flag tests that choose [eventType]; [None] is the final
    [else] branch, which returns without sending. *)
Definition eventTypeOf (op : fsnotify.Op) : option Z :=
  if fsnotify.has op fsnotify.Create then Some EventCreate
  else if fsnotify.has op fsnotify.Write then Some EventModify
  else if fsnotify.has op (Z.lor fsnotify.Remove fsnotify.Rename)
       then Some EventDelete
  else None.

(** The [select] that sends on [fw.events] or gives up on [fw.done];
    [selectDone] is the arm chosen when [done] is closed. *)
Definition send (selectDone : bool) (ev : FileEvent) (fw : FileWatcher)
  : unit * FileWatcher :=
  if done fw && selectDone then (tt, fw)
  else (tt, with_events (events fw ++ [ev]) fw).

Definition handleFsEvent (w : os.World) (selectDone : bool)
    (event : fsnotify.Event) : M FileWatcher unit :=
  let name := fsnotify.Name event in
  let op := fsnotify.Op_ event in
  let! ign := shouldIgnore name in
  if ign then ret tt
  else
    let isDir := match os.Stat w name with
                 | Some fileInfo => os.IsDir fileInfo
                 | None => false
                 end in
    if isDir then
      if fsnotify.has op fsnotify.Create then
        let! err := call (startWatching name) in
        match err with
        | Some _ => ret tt
        | None =>
            let! _ := walking.Walk (subdirFn name) w name in
            ret tt
        end
      else if fsnotify.has op (Z.lor fsnotify.Remove fsnotify.Rename) then
        call (λ fw, (tt, stopWatching name fw))
      else ret tt
    else
      match eventTypeOf op with
      | Some eventType =>
          call (send selectDone {| Path := name; EventType := eventType |})
      | None => ret tt
      end.

(** [eventLoop], fed with what its [select] receives; it stops at the
    first input that makes the loop return. *)
Fixpoint eventLoop (inputs : list Input) : M FileWatcher unit :=
  match inputs with
  | [] => ret tt
  | Cancel :: _ => ret tt
  | EventsClosed :: _ => ret tt
  | ErrorsClosed :: _ => ret tt
  | RawError _ :: rest => eventLoop rest
  | RawEvent event w selectDone :: rest =>
      let! _ := handleFsEvent w selectDone event in
      eventLoop rest
  end.

(** [Start]: the initial scan, then the event loop goroutine, here
    run on [inputs]. *)
Definition Start (w : os.World) (inputs : list Input)
  : M FileWatcher (option error) :=
  let! err := scanWorkspace w in
  match err with
  | Some e => ret (Some e)
  | None =>
      let! _ := eventLoop inputs in
      ret None
  end.

(** The function literal of [GetInitialFiles]; its state is [files]. *)
Definition listFn (m : gitignore.Matcher) : walking.WalkFunc (list string) :=
  λ path info err,
    match err with
    | Some _ => ret None
    | None =>
        let! d := isDirOf info in
        if d then
          let! ign := lift (gitignore.ShouldIgnoreDir m path) in
          if ign then ret (Some SkipDir) else ret None
        else
          let! ign := lift (gitignore.ShouldIgnore m path) in
          if ign then ret None
          else call (λ files : list string, (None, (files ++ [path])%list))
    end.

Definition GetInitialFiles (w : os.World) (fw : FileWatcher)
  : exec (list string + error) :=
  match walking.Walk (listFn (matcher fw)) w (workspacePath fw) [] with
  | Done (Some err, _) => Done (inr err)
  | Done (None, files) => Done (inl files)
  | Panicked => Panicked
  end.
End defs.

End watcher.

(** ** Package mcp-golang: the resource registry *)

Module mcp_golang.

(** Calls on the server, in order, and how it answers a call given the
    calls made before it.  The MIME type and the content handler passed
    to [RegisterResource] are not recorded. *)
Inductive Call : Type :=
| RegisterResource (uri name description : string)
| DeregisterResource (uri : string).

Record Server := {
  calls : list Call;
  reply : list Call → Call → option error;
}.

Definition invoke (c : Call) (s : Server) : option error * Server :=
  (reply s (calls s) c, {| calls := calls s ++ [c]; reply := reply s |}).

Definition isRegister (c : Call) : bool :=
  match c with RegisterResource _ _ _ => true | _ => false end.

Definition isDeregister (c : Call) : bool :=
  match c with DeregisterResource _ => true | _ => false end.

End mcp_golang.

(** ** The resources package *)

Module resources.

Definition fileURIPrefix : string := "file://".

Record ResourceManager := { workspacePath : string; debug : bool }.

Section defs.
Context `{!GoLibs}.

Definition GetFileURI (w : os.World) (path : string) : string :=
  match filepath.Abs w path with
  | None => fileURIPrefix +:+ path
  | Some absPath => fileURIPrefix +:+ absPath
  end.

Definition GetResourceIDFromPath (rm : ResourceManager) (path : string)
  : string :=
  match Rel (workspacePath rm) path with
  | None => filepath.Base path
  | Some relPath => relPath
  end.

Definition RegisterFileResource (rm : ResourceManager) (w : os.World)
    (path : string) (server : mcp_golang.Server)
  : option error * mcp_golang.Server :=
  let resourceID := GetResourceIDFromPath rm path in
  let description := "File: " +:+ resourceID in
  let uri := GetFileURI w path in
  mcp_golang.invoke
    (mcp_golang.RegisterResource uri resourceID description) server.

Definition DeregisterFileResource (rm : ResourceManager) (w : os.World)
    (path : string) (server : mcp_golang.Server)
  : option error * mcp_golang.Server :=
  let uri := GetFileURI w path in
  mcp_golang.invoke (mcp_golang.DeregisterResource uri) server.
End defs.

End resources.

(** ** internal/server *)

Module server.

(** The read/write mutex is not modelled: the methods run one at a
    time.  [cancelled] stands for the state of [ctx]. *)
Record MCPServer := {
  workspacePath : string;
  mcpServer : mcp_golang.Server;
  watcher : watcher.FileWatcher;
  resourceManager : resources.ResourceManager;
  debug : bool;
  cancelled : bool;
  registeredFiles : gmap string bool;
}.

Definition with_mcpServer (m : mcp_golang.Server) (s : MCPServer) :=
  {| workspacePath := workspacePath s; mcpServer := m;
     watcher := watcher s; resourceManager := resourceManager s;
     debug := debug s; cancelled := cancelled s;
     registeredFiles := registeredFiles s |}.

Definition with_registeredFiles (r : gmap string bool) (s : MCPServer) :=
  {| workspacePath := workspacePath s; mcpServer := mcpServer s;
     watcher := watcher s; resourceManager := resourceManager s;
     debug := debug s; cancelled := cancelled s;
     registeredFiles := r |}.

Section defs.
Context `{!GoLibs}.

Definition registerFile (w : os.World) (path : string) (s : MCPServer)
  : option error * MCPServer :=
  if mapget (registeredFiles s) path then (None, s)
  else
    match resources.RegisterFileResource (resourceManager s) w path
            (mcpServer s) with
    | (Some err, m) => (Some err, with_mcpServer m s)
    | (None, m) =>
        (None, with_registeredFiles (<[path := true]> (registeredFiles s))
                 (with_mcpServer m s))
    end.

Definition updateFile (w : os.World) (path : string) (s : MCPServer)
  : option error * MCPServer :=
  let isRegistered := mapget (registeredFiles s) path in
  if isRegistered then (None, s)
  else registerFile w path s.

Definition unregisterFile (w : os.World) (path : string) (s : MCPServer)
  : option error * MCPServer :=
  if negb (mapget (registeredFiles s) path) then (None, s)
  else
    match resources.DeregisterFileResource (resourceManager s) w path
            (mcpServer s) with
    | (Some err, m) => (Some err, with_mcpServer m s)
    | (None, m) =>
        (None, with_registeredFiles (delete path (registeredFiles s))
                 (with_mcpServer m s))
    end.

(** [handleFileEvent]; the error is only logged. *)
Definition handleFileEvent (w : os.World) (event : watcher.FileEvent)
    (s : MCPServer) : MCPServer :=
  let path := watcher.Path event in
  let ty := watcher.EventType event in
  if (ty =? watcher.EventCreate)%Z then snd (registerFile w path s)
  else if (ty =? watcher.EventModify)%Z then snd (updateFile w path s)
  else if (ty =? watcher.EventDelete)%Z then snd (unregisterFile w path s)
  else s.

(** The loop of [registerExistingFiles] over the initial listing. *)
Fixpoint registerAll (w : os.World) (files : list string) (s : MCPServer)
  : MCPServer :=
  match files with
  | [] => s
  | file :: rest => registerAll w rest (snd (registerFile w file s))
  end.

Definition registerExistingFiles (w : os.World) (s : MCPServer)
  : exec (option error * MCPServer) :=
  match watcher.GetInitialFiles w (watcher s) with
  | Panicked => Panicked
  | Done (inr err) => Done (Some err, s)
  | Done (inl files) => Done (None, registerAll w files s)
  end.
End defs.

End server.

(** ** A Unix reading of the assumed library functions

    [unix.Rel] follows [filepath.Rel] on slash-separated paths;
    [unix.CompileIgnoreLines] reads every non-empty line as a literal
    path.  They instantiate [GoLibs] in the examples. *)

Module unix.

(** Index of the next separator of [s] at or after [i], or [len(s)]:
    the loop [for i < len(s) && s[i] != Separator { i++ }]. *)
Fixpoint next_sep (s : string) (i : nat) : nat :=
  match s, i with
  | EmptyString, _ => i
  | String a rest, O =>
      if filepath.IsPathSeparator a then O else S (next_sep rest O)
  | String _ rest, S j => S (next_sep rest j)
  end.

(** [s[lo:hi]] for [lo <= hi <= len(s)]. *)
Definition slice (s : string) (lo hi : nat) : string :=
  String.substring lo (hi - lo) s.

(** The loop of [Rel] that positions [base[b0:bi]] and [targ[t0:ti]]
    at the first differing elements. *)
Fixpoint rel_loop (fuel : nat) (base targ : string) (b0 bi t0 ti : nat)
  : nat * nat * nat * nat :=
  match fuel with
  | O => (b0, bi, t0, ti)
  | S fuel =>
      let bl := String.length base in
      let tl := String.length targ in
      if (bi <? bl)%nat && (ti <? tl)%nat then
        let bi := next_sep base bi in
        let ti := next_sep targ ti in
        if negb (String.eqb (slice targ t0 ti) (slice base b0 bi))
        then (b0, bi, t0, ti)
        else
          let bi := if (bi <? bl)%nat then S bi else bi in
          let ti := if (ti <? tl)%nat then S ti else ti in
          rel_loop fuel base targ bi bi ti ti
      else (b0, bi, t0, ti)
  end.

Definition count_seps (s : string) : nat :=
  List.length (filter (λ c, filepath.IsPathSeparator c = true) (list_ascii_of_string s)).

Fixpoint dotdots (n : nat) : string :=
  match n with
  | O => ""
  | S n => "/.." +:+ dotdots n
  end.

(** [filepath.Rel]; [None] stands for a non-nil error. *)
Definition Rel (basepath targpath : string) : option string :=
  let base := filepath.Clean basepath in
  let targ := filepath.Clean targpath in
  if String.eqb targ base then Some "."
  else
    let base := if String.eqb base "." then "" else base in
    let baseSlashed := filepath.IsAbs base in
    let targSlashed := filepath.IsAbs targ in
    if negb (Bool.eqb baseSlashed targSlashed) then None
    else
      let bl := String.length base in
      let tl := String.length targ in
      let '(b0, bi, t0, ti) := rel_loop (S bl) base targ 0 0 0 0 in
      if String.eqb (slice base b0 bi) ".." then None
      else if negb (b0 =? bl)%nat then
        let seps := count_seps (slice base b0 bl) in
        Some (".." +:+ dotdots seps +:+
               (if negb (t0 =? tl)%nat then "/" +:+ slice targ t0 tl else ""))
      else Some (slice targ t0 tl).

Definition CompileIgnoreLines (lines : list string) : ignore.GitIgnore :=
  {| ignore.MatchesPath :=
       λ f, existsb (λ l, negb (String.eqb l "") && String.eqb l f) lines |}.

End unix.

Definition unix_libs : GoLibs :=
  {| Rel := unix.Rel; CompileIgnoreLines := unix.CompileIgnoreLines |}.

(** ** Properties as the specification words them

    These predicates follow the specification's sentences; they are
    compared with the code below. *)

Module stated.
Section defs.
Context `{!GoLibs}.

Definition registerCount (s : server.MCPServer) : nat :=
  length (filter (λ c, mcp_golang.isRegister c = true)
            (mcp_golang.calls (server.mcpServer s))).

Definition deregisterCount (s : server.MCPServer) : nat :=
  length (filter (λ c, mcp_golang.isDeregister c = true)
            (mcp_golang.calls (server.mcpServer s))).

(** "calling onCreate twice on the same path registers exactly once"
    and leaves the table containing the path. *)
Definition onCreate_twice (w : os.World) (path : string)
    (s : server.MCPServer) : Prop :=
  let s1 := snd (server.registerFile w path s) in
  let s2 := snd (server.registerFile w path s1) in
  registerCount s2 = S (registerCount s) ∧
  mapget (server.registeredFiles s2) path = true.

(** "calling onDelete twice deregisters exactly once and never errors
    on the second call", leaving the table without the path. *)
Definition onDelete_twice (w : os.World) (path : string)
    (s : server.MCPServer) : Prop :=
  let s1 := snd (server.unregisterFile w path s) in
  let r2 := server.unregisterFile w path s1 in
  deregisterCount (snd r2) = S (deregisterCount s) ∧
  mapget (server.registeredFiles (snd r2)) path = false ∧
  fst r2 = None.

(** "for all paths p where ShouldIgnore(p) is true, no FileEvent is
    ever emitted for p, and no watch is ever added for p", for a run
    of [Start] that ends in [fw]. *)
Definition ignore_sound (fw : watcher.FileWatcher) (p : string) : Prop :=
  gitignore.ShouldIgnore (watcher.matcher fw) p = Done true →
  (∀ e, e ∈ watcher.events fw → watcher.Path e ≠ p) ∧
  (fsnotify.AddCall p ∉ fsnotify.calls (watcher.watcher fw)) ∧
  mapget (watcher.watchedDirs fw) p = false.
End defs.
End stated.

(** The registry calls of [registerFile] and [unregisterFile], and the
    registry's answer to a call in the server's present state. *)
Section calls.
Context `{!GoLibs}.

Definition registerCall (w : os.World) (path : string)
    (s : server.MCPServer) : mcp_golang.Call :=
  let id := resources.GetResourceIDFromPath (server.resourceManager s) path in
  mcp_golang.RegisterResource (resources.GetFileURI w path) id
    ("File: " +:+ id).

Definition deregisterCall (w : os.World) (path : string) : mcp_golang.Call :=
  mcp_golang.DeregisterResource (resources.GetFileURI w path).

Definition answer (s : server.MCPServer) (c : mcp_golang.Call)
  : option error :=
  mcp_golang.reply (server.mcpServer s)
    (mcp_golang.calls (server.mcpServer s)) c.

End calls.

(** The watcher's answer to [Add(path)] in the present state. *)
Definition addAnswer (fw : watcher.FileWatcher) (path : string) : option error :=
  fsnotify.reply (watcher.watcher fw) (fsnotify.calls (watcher.watcher fw))
    (fsnotify.AddCall path).

Section invariants.
Context `{!GoLibs}.

(** What a walk that only ever calls [startWatching] on directories that
    [ShouldIgnoreDir] lets through does to the watcher [fw0]: it adds
    [Add] calls and watched directories, all of them let through, and
    touches nothing else. *)
Definition grows (fw0 fw : watcher.FileWatcher) : Prop :=
  watcher.matcher fw = watcher.matcher fw0 ∧
  watcher.workspacePath fw = watcher.workspacePath fw0 ∧
  watcher.events fw = watcher.events fw0 ∧
  watcher.done fw = watcher.done fw0 ∧
  fsnotify.reply (watcher.watcher fw) = fsnotify.reply (watcher.watcher fw0) ∧
  (∃ l, fsnotify.calls (watcher.watcher fw) =
          (fsnotify.calls (watcher.watcher fw0) ++ l)%list ∧
        Forall (λ c, ∃ p, c = fsnotify.AddCall p ∧
                  gitignore.ShouldIgnoreDir (watcher.matcher fw0) p
                    = Done false) l) ∧
  (∀ p, mapget (watcher.watchedDirs fw0) p = true →
        mapget (watcher.watchedDirs fw) p = true) ∧
  (∀ p, mapget (watcher.watchedDirs fw) p = true →
        mapget (watcher.watchedDirs fw0) p = true ∨
        gitignore.ShouldIgnoreDir (watcher.matcher fw0) p = Done false).

(** The invariant of the running watcher, for its matcher [m]: every
    watch asked for or held is on a directory that [ShouldIgnoreDir]
    lets through, and every event sent is for a path that
    [ShouldIgnore] lets through. *)
Definition Inv (m : gitignore.Matcher) (fw : watcher.FileWatcher) : Prop :=
  watcher.matcher fw = m ∧
  Forall (λ c, ∀ p, c = fsnotify.AddCall p →
            gitignore.ShouldIgnoreDir m p = Done false)
    (fsnotify.calls (watcher.watcher fw)) ∧
  Forall (λ e, gitignore.ShouldIgnore m (watcher.Path e) = Done false)
    (watcher.events fw) ∧
  (∀ p, mapget (watcher.watchedDirs fw) p = true →
        gitignore.ShouldIgnoreDir m p = Done false).
End invariants.

(** A matcher as [NewMatcher] builds it: the compiled patterns are there
    whenever [hasGitIgnore] is set. *)
Definition matcher_ok (m : gitignore.Matcher) : Prop :=
  gitignore.hasGitIgnore m = true → is_Some (gitignore.ignore_ m).

(** ** Concrete inputs

    A workspace without a .gitignore, a watcher and a registry that accept
    or refuse every call, and a few small trees. *)

Module example.

Definition notFound : error := Err "no such file or directory".

(** Nothing exists. *)
Definition noFiles : os.World :=
  {| os.Stat := λ _, None;
     os.ReadFile := λ _, inr notFound;
     os.Tree := λ _, os.Missing notFound;
     os.Getwd := Some "/" |}.

(** Only the directory [dir] exists, with the tree [n] below it. *)
Definition onlyDir (dir : string) (n : os.Node) : os.World :=
  {| os.Stat := λ p, if String.eqb p dir then Some walking.dirInfo else None;
     os.ReadFile := λ _, inr notFound;
     os.Tree := λ p, if String.eqb p dir then n else os.Missing notFound;
     os.Getwd := Some "/" |}.

Definition accept {C : Type} : list C → C → option error := λ _ _, None.
Definition refuse {C : Type} : list C → C → option error :=
  λ _ _, Some (Err "refused").

(** The watcher that [NewFileWatcher] builds for [ws] when nothing
    exists, so that there is no .gitignore. *)
Definition freshWatcher (ws : string) : watcher.FileWatcher :=
  {| watcher.workspacePath := ws;
     watcher.matcher :=
       {| gitignore.ignore_ := None;
          gitignore.workspacePath := ws;
          gitignore.hasGitIgnore := false;
          gitignore.defaultIgnores := [".git/"; ".DS_Store"; "node_modules/"] |};
     watcher.watcher := fsnotify.NewWatcher accept;
     watcher.events := [];
     watcher.done := false;
     watcher.watchedDirs := ∅;
     watcher.debug := false |}.

(** A server for the workspace /ws with the table [table]; its registry
    answers by [reply]. *)
Definition serverWith
    (reply : list mcp_golang.Call → mcp_golang.Call → option error)
    (table : gmap string bool) : server.MCPServer :=
  {| server.workspacePath := "/ws";
     server.mcpServer := {| mcp_golang.calls := []; mcp_golang.reply := reply |};
     server.watcher := freshWatcher "/ws";
     server.resourceManager :=
       {| resources.workspacePath := "/ws"; resources.debug := false |};
     server.debug := false;
     server.cancelled := false;
     server.registeredFiles := table |}.

Definition create (p : string) : fsnotify.Event :=
  {| fsnotify.Name := p; fsnotify.Op_ := fsnotify.Create |}.
Definition remove (p : string) : fsnotify.Event :=
  {| fsnotify.Name := p; fsnotify.Op_ := fsnotify.Remove |}.

(** mkdir /ws/d, seen while it exists; then rmdir /ws/d, seen once it
    is gone. *)
Definition mkdir_rmdir : list watcher.Input :=
  [ watcher.RawEvent (create "/ws/d") (onlyDir "/ws/d" (os.Dir None [])) false;
    watcher.RawEvent (remove "/ws/d") noFiles false ].

(** A workspace /ws holding node_modules/ with a package directory and
    a file in it. *)
Definition withNodeModules : os.World :=
  onlyDir "/ws"
    (os.Dir None
       [("node_modules",
         os.Dir None [("index.js", os.File); ("pkg", os.Dir None [])])]).

(** A workspace whose own name starts with a dot. *)
Definition dotRoot : string := "/home/u/.dotfiles".
Definition dotWorld : os.World :=
  onlyDir dotRoot (os.Dir None [("notes.txt", os.File)]).

End example.

(** ** internal/server, continued: the consumer of the event stream *)

Module consumer.

(** What [processFileEvents] receives, one [select] at a time. *)
Inductive Input : Type :=
| CtxDone                                  (* [s.ctx.Done()] fires *)
| ChannelClosed                            (* [events] is closed *)
| Event (w : os.World) (event : watcher.FileEvent).

Section defs.
Context `{!GoLibs}.

(** [processFileEvents], fed with what its [select] receives; [w] is the
    operating system at the time the event is handled. *)
Fixpoint processFileEvents (inputs : list Input) (s : server.MCPServer)
  : server.MCPServer :=
  match inputs with
  | [] => s
  | CtxDone :: _ => s
  | ChannelClosed :: _ => s
  | Event w event :: rest =>
      processFileEvents rest (server.handleFileEvent w event s)
  end.
End defs.

(** [Stop]: cancel the context and stop the watcher. *)
Definition Stop (s : server.MCPServer) : server.MCPServer :=
  {| server.workspacePath := server.workspacePath s;
     server.mcpServer := server.mcpServer s;
     server.watcher := watcher.Stop (server.watcher s);
     server.resourceManager := server.resourceManager s;
     server.debug := server.debug s;
     server.cancelled := true;
     server.registeredFiles := server.registeredFiles s |}.

End consumer.

(** Library functions of the MIME lookup, taken as given:
    [mime.TypeByExtension] and [strings.ToLower]. *)
Class MimeLibs := {
  TypeByExtension : string → string;
  ToLower : string → string;
}.

(** ** The resources package, continued: MIME types *)

Module mimetype.

(** [filepath.Ext]: the suffix of the last path element that starts at
    its last dot, or the empty string. *)
Fixpoint Ext (path : string) : string :=
  match path with
  | EmptyString => EmptyString
  | String a rest =>
      if existsb filepath.IsPathSeparator (list_ascii_of_string rest)
      then Ext rest
      else if negb (String.eqb (Ext rest) "") then Ext rest
      else if Ascii.eqb a "."%char then path
      else EmptyString
  end.

(** The map literal [textExts]. *)
Definition textExts : gmap string bool :=
  list_to_map
    [ (".txt", true); (".md", true); (".json", true); (".xml", true);
      (".html", true); (".css", true); (".js", true); (".ts", true);
      (".go", true); (".py", true); (".java", true); (".c", true);
      (".cpp", true); (".h", true); (".sh", true); (".yaml", true);
      (".yml", true); (".toml", true); (".cfg", true); (".conf", true);
      (".ini", true); (".sql", true); (".log", true); (".csv", true) ].

Section defs.
Context `{!MimeLibs}.

Definition isLikelyTextFile (path : string) : bool :=
  let ext := ToLower (Ext path) in
  mapget textExts ext.

Definition getFileMIMEType (path : string) : string :=
  let ext := Ext path in
  let mimeType := TypeByExtension ext in
  if String.eqb mimeType "" then
    if isLikelyTextFile path then "text/plain"
    else "application/octet-stream"
  else mimeType.
End defs.

End mimetype.

(** ** Vocabulary of the further properties *)

(** The number of calls of one kind in a registry log that the registry
    answered with nil, each call being answered on the calls before it. *)
Fixpoint succeeded_after
    (reply : list mcp_golang.Call → mcp_golang.Call → option error)
    (kind : mcp_golang.Call → bool)
    (before rest : list mcp_golang.Call) : nat :=
  match rest with
  | [] => 0
  | c :: rest' =>
      ((if kind c && bool_decide (reply before c = None) then 1 else 0)
       + succeeded_after reply kind (before ++ [c])%list rest')%nat
  end.

Definition succeeded (kind : mcp_golang.Call → bool) (s : server.MCPServer)
  : nat :=
  succeeded_after (mcp_golang.reply (server.mcpServer s)) kind []
    (mcp_golang.calls (server.mcpServer s)).

(** Inputs on which a loop goes on to the next [select]. *)
Definition goes_on (i : watcher.Input) : bool :=
  match i with
  | watcher.RawError _ | watcher.RawEvent _ _ _ => true
  | _ => false
  end.

(** Every entry of a table or watched set holds [true]: the code never
    stores [false]. *)
Definition all_true (m : gmap string bool) : Prop :=
  ∀ k b, m !! k = Some b → b = true.

(** Every watched directory has its [Add] call in the watcher's log. *)
Definition backed (fw : watcher.FileWatcher) : Prop :=
  all_true (watcher.watchedDirs fw) ∧
  ∀ p, mapget (watcher.watchedDirs fw) p = true →
       fsnotify.AddCall p ∈ fsnotify.calls (watcher.watcher fw).

(** The event stream and the call log of [fw] extend those of [fw0]. *)
Definition extends (fw0 fw : watcher.FileWatcher) : Prop :=
  watcher.events fw0 `prefix_of` watcher.events fw ∧
  fsnotify.calls (watcher.watcher fw0)
    `prefix_of` fsnotify.calls (watcher.watcher fw).

(** The table has as many entries as the registry accepted [Register]
    calls beyond the [Deregister] calls it accepted. *)
Definition balanced (s : server.MCPServer) : Prop :=
  all_true (server.registeredFiles s) ∧
  (size (server.registeredFiles s)
   + succeeded mcp_golang.isDeregister s)%nat
  = succeeded mcp_golang.isRegister s.

(** A registry that accepts every call. *)
Definition accepting (s : server.MCPServer) : Prop :=
  ∀ l c, mcp_golang.reply (server.mcpServer s) l c = None.

(** A tree in which every [Lstat] and every directory read succeeds. *)
Fixpoint error_free (n : os.Node) : bool :=
  match n with
  | os.File => true
  | os.Dir None entries =>
      (fix all (l : list (string * os.Node)) : bool :=
         match l with
         | [] => true
         | (_, child) :: rest => error_free child && all rest
         end) entries
  | os.Dir (Some _) _ => false
  | os.Missing _ => false
  end.

Section reached.
Context `{!GoLibs}.

(** The files of the tree [n] at [path] that are not ignored and do not
    lie below an ignored directory, an unreadable directory or a failed
    [Lstat], in the order of the tree. *)
Fixpoint listed (m : gitignore.Matcher) (path : string) (n : os.Node)
  : list string :=
  match n with
  | os.File =>
      match gitignore.ShouldIgnore m path with
      | Done false => [path]
      | _ => []
      end
  | os.Dir None entries =>
      match gitignore.ShouldIgnoreDir m path with
      | Done false =>
          (fix below (l : list (string * os.Node)) : list string :=
             match l with
             | [] => []
             | (name, child) :: rest =>
                 (listed m (filepath.Join path name) child ++ below rest)%list
             end) entries
      | _ => []
      end
  | os.Dir (Some _) _ => []
  | os.Missing _ => []
  end.

(** The directories of the tree [n] at [path] that are not ignored and
    do not lie below an ignored directory. *)
Fixpoint watchable (m : gitignore.Matcher) (path : string) (n : os.Node)
  : list string :=
  match n with
  | os.Dir _ entries =>
      match gitignore.ShouldIgnoreDir m path with
      | Done false =>
          path ::
          (fix below (l : list (string * os.Node)) : list string :=
             match l with
             | [] => []
             | (name, child) :: rest =>
                 (watchable m (filepath.Join path name) child ++ below rest)%list
             end) entries
      | _ => []
      end
  | _ => []
  end.
End reached.

(** A path element: a string without a separator. *)
Definition is_element (s : string) : bool :=
  negb (existsb filepath.IsPathSeparator (list_ascii_of_string s)).

(** A reading of the MIME library functions for the examples:
    [TypeByExtension] knows ".html" only, [ToLower] lowers ASCII letters. *)
Module example_mime.

Definition lower_ascii (c : ascii) : ascii :=
  let n := nat_of_ascii c in
  if (65 <=? n)%nat && (n <=? 90)%nat then ascii_of_nat (n + 32) else c.

Fixpoint lower (s : string) : string :=
  match s with
  | EmptyString => EmptyString
  | String c rest => String (lower_ascii c) (lower rest)
  end.

Definition libs : MimeLibs :=
  {| TypeByExtension :=
       λ ext, if String.eqb ext ".html" then "text/html; charset=utf-8" else "";
     ToLower := lower |}.

End example_mime.

(** * Proofs *)

Local Open Scope list_scope.

Section proofs.
Context `{!GoLibs}.

(** ** The ignore matcher *)

Lemma Base_nonempty (path : string) : filepath.Base path ≠ "".
Proof.
  unfold filepath.Base.
  destruct (String.eqb path "") eqn:E; [discriminate|].
  destruct (String.eqb (filepath.last_elem (filepath.strip_trailing path)) "")
    eqn:E'; [discriminate|].
  by apply String.eqb_neq.
Qed.

Lemma index_nonempty (s : string) :
  s ≠ "" → ∃ c, strings.index s 0 = Done c.
Proof. destruct s as [|a s]; [done|]. intros _. by exists a. Qed.

Lemma index_Base (path : string) :
  ∃ c, strings.index (filepath.Base path) 0 = Done c.
Proof. apply index_nonempty, Base_nonempty. Qed.

Lemma NewMatcher_ok w ws m :
  gitignore.NewMatcher w ws = inl m → matcher_ok m.
Proof.
  unfold gitignore.NewMatcher, matcher_ok.
  destruct (os.Stat w _); [destruct (os.ReadFile w _)|];
    intros [= <-]; simpl; eauto; discriminate.
Qed.

Lemma NewMatcher_fields w ws m :
  gitignore.NewMatcher w ws = inl m →
  gitignore.workspacePath m = ws ∧
  gitignore.defaultIgnores m = [".git/"; ".DS_Store"; "node_modules/"].
Proof.
  unfold gitignore.NewMatcher.
  destruct (os.Stat w _); [destruct (os.ReadFile w _)|];
    intros [= <-]; simpl; eauto.
Qed.

Lemma ShouldIgnore_total m path :
  matcher_ok m → ∃ b, gitignore.ShouldIgnore m path = Done b.
Proof.
  intros Hok. unfold gitignore.ShouldIgnore.
  destruct (index_Base path) as [c ->]. simpl.
  destruct (Ascii.eqb c "."); [eauto|].
  destruct (Rel _ _); [|eauto].
  destruct (gitignore.matchesDefault _ _); [eauto|].
  destruct (gitignore.hasGitIgnore m) eqn:Hg; [|eauto].
  destruct (Hok Hg) as [gi ->]. eauto.
Qed.

Lemma ShouldIgnoreDir_total m path :
  matcher_ok m → ∃ b, gitignore.ShouldIgnoreDir m path = Done b.
Proof.
  intros Hok. unfold gitignore.ShouldIgnoreDir.
  destruct (String.eqb _ _); [eauto|]. by apply ShouldIgnore_total.
Qed.

Lemma ShouldIgnoreDir_not_root m path :
  path ≠ gitignore.workspacePath m →
  gitignore.ShouldIgnoreDir m path = gitignore.ShouldIgnore m path.
Proof.
  intros Hne. unfold gitignore.ShouldIgnoreDir.
  by apply String.eqb_neq in Hne as ->.
Qed.

(** C8. [ShouldIgnoreDir] answers [false] on the workspace root, whatever
    the matcher holds: default patterns, compiled .gitignore patterns,
    or a root whose base name starts with a dot. *)
Theorem ShouldIgnoreDir_root (m : gitignore.Matcher) :
  gitignore.ShouldIgnoreDir m (gitignore.workspacePath m) = Done false.
Proof. unfold gitignore.ShouldIgnoreDir. by rewrite String.eqb_refl. Qed.

(** C9. [ShouldIgnore] returns on every path: the access
    [filepath.Base(path)[0]] is in bounds for every string, the empty one
    included, so a matcher built by [NewMatcher] never panics; and when
    the base name does not start with '.' and [filepath.Rel] fails, the
    answer is [false]. *)
Theorem ShouldIgnore_returns w ws m (path : string) :
  gitignore.NewMatcher w ws = inl m →
  filepath.Base path ≠ "" ∧
  (∃ c, strings.index (filepath.Base path) 0 = Done c) ∧
  (∃ b, gitignore.ShouldIgnore m path = Done b) ∧
  (strings.index (filepath.Base path) 0 ≠ Done "."%char →
   Rel (gitignore.workspacePath m) path = None →
   gitignore.ShouldIgnore m path = Done false).
Proof.
  intros Hm. split; [apply Base_nonempty|].
  split; [apply index_Base|].
  split; [eapply ShouldIgnore_total, NewMatcher_ok, Hm|].
  intros Hdot Hrel. unfold gitignore.ShouldIgnore.
  destruct (index_Base path) as [c Hc]. rewrite Hc in Hdot |- *. simpl.
  destruct (Ascii.eqb_spec c "."); [by subst|].
  by rewrite Hrel.
Qed.

(** ** The synchronizer *)

Lemma mapget_insert (m : gmap string bool) (k : string) (b : bool) :
  mapget (<[k := b]> m) k = b.
Proof. unfold mapget. by rewrite lookup_insert_eq. Qed.

Lemma mapget_insert_ne (m : gmap string bool) (k k' : string) (b : bool) :
  k ≠ k' → mapget (<[k := b]> m) k' = mapget m k'.
Proof. intros. unfold mapget. by rewrite lookup_insert_ne. Qed.

Lemma mapget_delete (m : gmap string bool) (k : string) :
  mapget (delete k m) k = false.
Proof. unfold mapget. by rewrite lookup_delete_eq. Qed.

Lemma mapget_true_ne (m m' : gmap string bool) (k : string) :
  mapget m k = true → mapget m' k = false → m ≠ m'.
Proof. intros H1 H2 ->. congruence. Qed.

Lemma registerFile_registered w path s :
  mapget (server.registeredFiles s) path = true →
  server.registerFile w path s = (None, s).
Proof. intros Hm. unfold server.registerFile. by rewrite Hm. Qed.

Lemma registerFile_fresh w path s :
  mapget (server.registeredFiles s) path = false →
  ∃ s', server.registerFile w path s = (answer s (registerCall w path s), s') ∧
    mcp_golang.calls (server.mcpServer s') =
      mcp_golang.calls (server.mcpServer s) ++ [registerCall w path s] ∧
    server.registeredFiles s' =
      match answer s (registerCall w path s) with
      | None => <[path := true]> (server.registeredFiles s)
      | Some _ => server.registeredFiles s
      end.
Proof.
  intros Hm. unfold server.registerFile. rewrite Hm.
  unfold resources.RegisterFileResource, mcp_golang.invoke.
  fold (registerCall w path s). fold (answer s (registerCall w path s)).
  destruct (answer s (registerCall w path s)); eexists; split; eauto.
Qed.

Lemma unregisterFile_absent w path s :
  mapget (server.registeredFiles s) path = false →
  server.unregisterFile w path s = (None, s).
Proof. intros Hm. unfold server.unregisterFile. by rewrite Hm. Qed.

Lemma unregisterFile_present w path s :
  mapget (server.registeredFiles s) path = true →
  ∃ s', server.unregisterFile w path s = (answer s (deregisterCall w path), s') ∧
    mcp_golang.calls (server.mcpServer s') =
      mcp_golang.calls (server.mcpServer s) ++ [deregisterCall w path] ∧
    server.registeredFiles s' =
      match answer s (deregisterCall w path) with
      | None => delete path (server.registeredFiles s)
      | Some _ => server.registeredFiles s
      end.
Proof.
  intros Hm. unfold server.unregisterFile. rewrite Hm. simpl.
  unfold resources.DeregisterFileResource, mcp_golang.invoke.
  fold (deregisterCall w path). fold (answer s (deregisterCall w path)).
  destruct (answer s (deregisterCall w path)); eexists; split; eauto.
Qed.

Lemma registerCount_snoc s s' c :
  mcp_golang.calls (server.mcpServer s') =
    mcp_golang.calls (server.mcpServer s) ++ [c] →
  stated.registerCount s' =
    (stated.registerCount s + if mcp_golang.isRegister c then 1 else 0)%nat.
Proof.
  intros E. unfold stated.registerCount. rewrite E, filter_app, length_app.
  f_equal. destruct c; reflexivity.
Qed.

Lemma deregisterCount_snoc s s' c :
  mcp_golang.calls (server.mcpServer s') =
    mcp_golang.calls (server.mcpServer s) ++ [c] →
  stated.deregisterCount s' =
    (stated.deregisterCount s + if mcp_golang.isDeregister c then 1 else 0)%nat.
Proof.
  intros E. unfold stated.deregisterCount. rewrite E, filter_app, length_app.
  f_equal. destruct c; reflexivity.
Qed.

(** C4 (amended). For a path not in the table whose first
    [Registry.Register] call succeeds, two [onCreate] calls in a row
    register exactly once and leave the path in the table; for a path in
    the table whose first [Registry.Deregister] call succeeds, two
    [onDelete] calls in a row deregister exactly once, leave the table
    without the path, and the second call returns no error. *)
Theorem twice_registers_once w path (s : server.MCPServer) :
  (mapget (server.registeredFiles s) path = false →
   fst (server.registerFile w path s) = None →
   stated.onCreate_twice w path s) ∧
  (mapget (server.registeredFiles s) path = true →
   fst (server.unregisterFile w path s) = None →
   stated.onDelete_twice w path s).
Proof.
  split; intros Hreg Hok.
  - destruct (registerFile_fresh w path s Hreg) as (s1 & E & Hc & Ht).
    unfold stated.onCreate_twice. rewrite E in Hok |- *. simpl in *.
    rewrite Hok in Ht.
    assert (mapget (server.registeredFiles s1) path = true) as H1
      by (rewrite Ht; apply mapget_insert).
    rewrite (registerFile_registered _ _ _ H1). simpl. split; [|done].
    rewrite (registerCount_snoc _ _ _ Hc). simpl. lia.
  - destruct (unregisterFile_present w path s Hreg) as (s1 & E & Hc & Ht).
    unfold stated.onDelete_twice. rewrite E in Hok |- *. simpl in *.
    rewrite Hok in Ht.
    assert (mapget (server.registeredFiles s1) path = false) as H1
      by (rewrite Ht; apply mapget_delete).
    rewrite (unregisterFile_absent _ _ _ H1). simpl. split; [|done].
    rewrite (deregisterCount_snoc _ _ _ Hc). simpl. lia.
Qed.

(** C6. [onModify] on a registered path returns without touching the
    server: no registry call, same table.  On a path that is not
    registered it is [onCreate]: the same result and state, one
    [Register] call, and the path is in the table when that call
    succeeds. *)
Theorem updateFile_spec w path (s : server.MCPServer) :
  (mapget (server.registeredFiles s) path = true →
   server.updateFile w path s = (None, s)) ∧
  (mapget (server.registeredFiles s) path = false →
   server.updateFile w path s = server.registerFile w path s ∧
   ∃ c, mcp_golang.isRegister c = true ∧
     mcp_golang.calls (server.mcpServer (snd (server.updateFile w path s))) =
       mcp_golang.calls (server.mcpServer s) ++ [c] ∧
     (fst (server.updateFile w path s) = None →
      mapget (server.registeredFiles (snd (server.updateFile w path s))) path
        = true)).
Proof.
  unfold server.updateFile. split; intros Hm; rewrite Hm; [done|].
  split; [done|].
  destruct (registerFile_fresh w path s Hm) as (s1 & E & Hc & Ht).
  rewrite E. simpl. exists (registerCall w path s).
  split; [done|]. split; [done|].
  intros Hok. rewrite Hok in Ht. rewrite Ht. apply mapget_insert.
Qed.

Lemma table_changes_after_success w path (s : server.MCPServer) :
  (server.registeredFiles (snd (server.registerFile w path s)) ≠
     server.registeredFiles s →
   fst (server.registerFile w path s) = None ∧
   answer s (registerCall w path s) = None) ∧
  (server.registeredFiles (snd (server.unregisterFile w path s)) ≠
     server.registeredFiles s →
   fst (server.unregisterFile w path s) = None ∧
   answer s (deregisterCall w path) = None).
Proof.
  split; intros Hne; destruct (mapget (server.registeredFiles s) path) eqn:Hm.
  - rewrite (registerFile_registered _ _ _ Hm) in Hne. done.
  - destruct (registerFile_fresh w path s Hm) as (s1 & E1 & _ & Ht).
    rewrite E1 in Hne |- *. simpl in *.
    destruct (answer s (registerCall w path s)); [congruence|done].
  - destruct (unregisterFile_present w path s Hm) as (s1 & E1 & _ & Ht).
    rewrite E1 in Hne |- *. simpl in *.
    destruct (answer s (deregisterCall w path)); [congruence|done].
  - rewrite (unregisterFile_absent _ _ _ Hm) in Hne. done.
Qed.

(** C7. When [Registry.Register] fails in [onCreate] the table is as
    before and the path is still absent; when [Registry.Deregister]
    fails in [onDelete] the table is as before and the path is still
    present.  Either method changes the table only when it made its
    registry call and that call succeeded. *)
Theorem failure_keeps_table w path (s s' : server.MCPServer) e :
  (server.registerFile w path s = (Some e, s') →
   server.registeredFiles s' = server.registeredFiles s ∧
   mapget (server.registeredFiles s') path = false ∧
   answer s (registerCall w path s) = Some e) ∧
  (server.unregisterFile w path s = (Some e, s') →
   server.registeredFiles s' = server.registeredFiles s ∧
   mapget (server.registeredFiles s') path = true ∧
   answer s (deregisterCall w path) = Some e) ∧
  (server.registeredFiles (snd (server.registerFile w path s)) ≠
     server.registeredFiles s →
   fst (server.registerFile w path s) = None ∧
   answer s (registerCall w path s) = None) ∧
  (server.registeredFiles (snd (server.unregisterFile w path s)) ≠
     server.registeredFiles s →
   fst (server.unregisterFile w path s) = None ∧
   answer s (deregisterCall w path) = None).
Proof.
  split; [|split; [|apply table_changes_after_success]]; intros E.
  - destruct (mapget (server.registeredFiles s) path) eqn:Hm.
    + rewrite (registerFile_registered _ _ _ Hm) in E. discriminate.
    + destruct (registerFile_fresh w path s Hm) as (s1 & E1 & _ & Ht).
      rewrite E1 in E. injection E as Ha <-. rewrite Ha in Ht.
      rewrite Ht. done.
  - destruct (mapget (server.registeredFiles s) path) eqn:Hm.
    + destruct (unregisterFile_present w path s Hm) as (s1 & E1 & _ & Ht).
      rewrite E1 in E. injection E as Ha <-. rewrite Ha in Ht.
      rewrite Ht. done.
    + rewrite (unregisterFile_absent _ _ _ Hm) in E. discriminate.
Qed.

(** ** The watcher: single steps *)

Lemma land_pow2 (op k : Z) :
  (0 ≤ k)%Z →
  Z.land op (2 ^ k)%Z = if Z.testbit op k then (2 ^ k)%Z else 0%Z.
Proof.
  intros Hk. apply Z.bits_inj'. intros n Hn.
  rewrite Z.land_spec, Z.pow2_bits_eqb by done.
  destruct (Z.eqb_spec k n) as [->|Hne].
  - rewrite andb_true_r. destruct (Z.testbit op n) eqn:E.
    + by rewrite Z.pow2_bits_true.
    + by rewrite Z.bits_0.
  - rewrite andb_false_r. destruct (Z.testbit op k).
    + by rewrite Z.pow2_bits_false.
    + by rewrite Z.bits_0.
Qed.

Lemma has_pow2 (op k : Z) :
  (0 ≤ k)%Z → fsnotify.has op (2 ^ k)%Z = Z.testbit op k.
Proof.
  intros Hk. unfold fsnotify.has. rewrite land_pow2 by done.
  destruct (Z.testbit op k); [|done].
  apply negb_true_iff, Z.eqb_neq. apply Z.pow_nonzero; lia.
Qed.

Lemma has_Create op : fsnotify.has op fsnotify.Create = Z.testbit op 0.
Proof. exact (has_pow2 op 0 ltac:(lia)). Qed.

Lemma has_Write op : fsnotify.has op fsnotify.Write = Z.testbit op 1.
Proof. exact (has_pow2 op 1 ltac:(lia)). Qed.

Lemma has_Remove_Rename op :
  fsnotify.has op (Z.lor fsnotify.Remove fsnotify.Rename)
  = Z.testbit op 2 || Z.testbit op 3.
Proof.
  unfold fsnotify.has. rewrite Z.land_lor_distr_r.
  change fsnotify.Remove with (2 ^ 2)%Z. change fsnotify.Rename with (2 ^ 3)%Z.
  rewrite !land_pow2 by lia.
  destruct (Z.testbit op 2), (Z.testbit op 3); reflexivity.
Qed.

Lemma eventTypeOf_bits op :
  watcher.eventTypeOf op =
    if Z.testbit op 0 then Some watcher.EventCreate
    else if Z.testbit op 1 then Some watcher.EventModify
    else if Z.testbit op 2 || Z.testbit op 3 then Some watcher.EventDelete
    else None.
Proof.
  unfold watcher.eventTypeOf.
  by rewrite has_Create, has_Write, has_Remove_Rename.
Qed.

(** C5. A raw notification that reaches classification (its path is
    not ignored and does not stat as a directory) is classified by
    Create over Write over Remove/Rename: the event put on the stream is
    Create when bit 0 (Create) is set, whatever the other bits;
    otherwise Modify when bit 1 (Write) is set; otherwise Delete when
    bit 2 (Remove) or bit 3 (Rename) is set; with none of the four
    nothing is put on the stream. *)
Theorem classification_precedence w selectDone ev (fw : watcher.FileWatcher) :
  gitignore.ShouldIgnore (watcher.matcher fw) (fsnotify.Name ev) = Done false →
  (∀ fi, os.Stat w (fsnotify.Name ev) = Some fi → os.IsDir fi = false) →
  watcher.done fw && selectDone = false →
  ∃ fw', watcher.handleFsEvent w selectDone ev fw = Done (tt, fw') ∧
    watcher.watchedDirs fw' = watcher.watchedDirs fw ∧
    watcher.events fw' = watcher.events fw ++
      (let ev' ty := {| watcher.Path := fsnotify.Name ev;
                        watcher.EventType := ty |} in
       if Z.testbit (fsnotify.Op_ ev) 0 then [ev' watcher.EventCreate]
       else if Z.testbit (fsnotify.Op_ ev) 1 then [ev' watcher.EventModify]
       else if Z.testbit (fsnotify.Op_ ev) 2 || Z.testbit (fsnotify.Op_ ev) 3
            then [ev' watcher.EventDelete]
       else []).
Proof.
  intros Hign Hstat Hsel.
  unfold watcher.handleFsEvent, bind, watcher.shouldIgnore, lift.
  rewrite Hign.
  assert (match os.Stat w (fsnotify.Name ev) with
          | Some fileInfo => os.IsDir fileInfo
          | None => false
          end = false) as ->.
  { destruct (os.Stat w (fsnotify.Name ev)) eqn:E; [by apply Hstat|done]. }
  rewrite eventTypeOf_bits.
  destruct (Z.testbit _ 0);
    [|destruct (Z.testbit _ 1);
      [|destruct (Z.testbit _ 2 || Z.testbit _ 3)]];
    unfold call, watcher.send, ret; rewrite ?Hsel;
    eexists; simpl; rewrite ?app_nil_r; done.
Qed.

Lemma startWatching_watched path fw :
  mapget (watcher.watchedDirs fw) path = true →
  watcher.startWatching path fw = (None, fw).
Proof. intros Hw. unfold watcher.startWatching. by rewrite Hw. Qed.

Lemma startWatching_new path fw :
  mapget (watcher.watchedDirs fw) path = false →
  ∃ fw', watcher.startWatching path fw = (addAnswer fw path, fw') ∧
    watcher.matcher fw' = watcher.matcher fw ∧
    watcher.workspacePath fw' = watcher.workspacePath fw ∧
    watcher.events fw' = watcher.events fw ∧
    watcher.done fw' = watcher.done fw ∧
    fsnotify.reply (watcher.watcher fw') = fsnotify.reply (watcher.watcher fw) ∧
    fsnotify.calls (watcher.watcher fw') =
      fsnotify.calls (watcher.watcher fw) ++ [fsnotify.AddCall path] ∧
    watcher.watchedDirs fw' =
      match addAnswer fw path with
      | None => <[path := true]> (watcher.watchedDirs fw)
      | Some _ => watcher.watchedDirs fw
      end.
Proof.
  intros Hw. unfold watcher.startWatching. rewrite Hw.
  unfold fsnotify.Add, fsnotify.invoke. fold (addAnswer fw path).
  destruct (addAnswer fw path); eexists; split; eauto 10.
Qed.

(** C10. [startWatching] on a directory already in the watched set
    returns nil and leaves the watcher as it was: no [Add] call, same
    set.  On any other directory, when [Add] fails the error is
    returned and the set is unchanged; the set changes only when [Add]
    was called and succeeded, and then by gaining that directory. *)
Theorem startWatching_spec path (fw : watcher.FileWatcher) :
  (mapget (watcher.watchedDirs fw) path = true →
   watcher.startWatching path fw = (None, fw)) ∧
  (∀ e, mapget (watcher.watchedDirs fw) path = false →
        addAnswer fw path = Some e →
        fst (watcher.startWatching path fw) = Some e ∧
        watcher.watchedDirs (snd (watcher.startWatching path fw))
          = watcher.watchedDirs fw) ∧
  (watcher.watchedDirs (snd (watcher.startWatching path fw))
     ≠ watcher.watchedDirs fw →
   addAnswer fw path = None ∧
   fsnotify.calls (watcher.watcher (snd (watcher.startWatching path fw))) =
     fsnotify.calls (watcher.watcher fw) ++ [fsnotify.AddCall path] ∧
   watcher.watchedDirs (snd (watcher.startWatching path fw))
     = <[path := true]> (watcher.watchedDirs fw)).
Proof.
  split; [apply startWatching_watched|]. split.
  - intros e Hw Ha.
    destruct (startWatching_new path fw Hw) as (fw' & E & Hrest).
    rewrite E, Ha. simpl. split; [done|].
    destruct Hrest as (_ & _ & _ & _ & _ & _ & ->). by rewrite Ha.
  - intros Hne. destruct (mapget (watcher.watchedDirs fw) path) eqn:Hw.
    + by rewrite (startWatching_watched _ _ Hw) in Hne.
    + destruct (startWatching_new path fw Hw) as (fw' & E & Hrest).
      rewrite E in Hne |- *. simpl in *.
      destruct Hrest as (_ & _ & _ & _ & _ & Hc & Hd).
      destruct (addAnswer fw path); [congruence|done].
Qed.

(** ** Walking the tree *)

Lemma Node_induction (P : os.Node → Prop) :
  P os.File →
  (∀ readErr entries,
      Forall (λ x, P x.2) entries → P (os.Dir readErr entries)) →
  (∀ err, P (os.Missing err)) →
  ∀ n, P n.
Proof.
  intros HF HD HM. fix IH 1. intros [|readErr entries|err].
  - exact HF.
  - apply HD. induction entries as [|[name child] rest IHrest].
    + constructor.
    + constructor; [apply IH|exact IHrest].
  - exact (HM err).
Qed.

(** A visitor that returns and keeps [I] whenever it is called the way
    [walk] calls it (a nil [info] only with an error) makes the whole
    walk return and keep [I]. *)
Lemma walk_keeps {S} (walkFn : walking.WalkFunc S) (I : S → Prop) :
  (∀ path info err s,
      (info = None → err ≠ None) → I s →
      ∃ r s', walkFn path info err s = Done (r, s') ∧ I s') →
  ∀ n path s, I s →
    ∃ r s', walking.walk walkFn path n s = Done (r, s') ∧ I s'.
Proof.
  intros Hfn n. induction n as [|readErr entries IHentries|err]
    using Node_induction; intros path s Hs; simpl.
  - apply Hfn; [done|done].
  - unfold bind at 1.
    destruct (Hfn path (Some walking.dirInfo) readErr s) as (err1 & s1 & -> & Hs1);
      [done|done|].
    destruct readErr as [e|]; [unfold ret; eauto|].
    destruct err1 as [e|]; [unfold ret; eauto|].
    clear Hs. revert s1 Hs1.
    induction IHentries as [|[name child] rest Hchild _ IHrest];
      intros s1 Hs1.
    + unfold ret; eauto.
    + unfold bind at 1. simpl in Hchild.
      destruct (Hchild (filepath.Join path name) s1 Hs1)
        as (err & s2 & -> & Hs2).
      destruct err as [[|msg]|]; destruct child;
        try (unfold ret; by eauto); by apply IHrest.
  - apply Hfn; [intros _; done|done].
Qed.

Lemma Walk_keeps {S} (walkFn : walking.WalkFunc S) (I : S → Prop) :
  (∀ path info err s,
      (info = None → err ≠ None) → I s →
      ∃ r s', walkFn path info err s = Done (r, s') ∧ I s') →
  ∀ w root s, I s →
    ∃ r s', walking.Walk walkFn w root s = Done (r, s') ∧ I s'.
Proof.
  intros Hfn w root s Hs. unfold walking.Walk, bind.
  destruct (walk_keeps walkFn I Hfn (os.Tree w root) root s Hs)
    as (err & s1 & -> & Hs1).
  destruct err as [[|msg]|]; unfold ret; eauto.
Qed.

(** ** The watcher: walks and the event loop *)

Lemma mapget_insert_true (d : gmap string bool) (p q : string) :
  mapget (<[p := true]> d) q = true ↔ q = p ∨ mapget d q = true.
Proof.
  destruct (decide (p = q)) as [->|Hne].
  - rewrite mapget_insert. split; auto.
  - rewrite mapget_insert_ne by done. split; [auto|].
    intros [->|Hq]; done.
Qed.

Lemma mapget_delete_true (d : gmap string bool) (p q : string) :
  mapget (delete p d) q = true → mapget d q = true.
Proof.
  unfold mapget. destruct (decide (p = q)) as [->|Hne].
  - by rewrite lookup_delete_eq.
  - by rewrite lookup_delete_ne.
Qed.

Lemma ShouldIgnore_false_Dir m path :
  gitignore.ShouldIgnore m path = Done false →
  gitignore.ShouldIgnoreDir m path = Done false.
Proof.
  intros Hi. unfold gitignore.ShouldIgnoreDir.
  by destruct (String.eqb path (gitignore.workspacePath m)).
Qed.

Lemma grows_refl fw : grows fw fw.
Proof.
  repeat split; try done; [|eauto].
  exists []. by rewrite app_nil_r.
Qed.

Lemma grows_startWatching fw0 fw path :
  grows fw0 fw →
  gitignore.ShouldIgnoreDir (watcher.matcher fw0) path = Done false →
  grows fw0 (snd (watcher.startWatching path fw)).
Proof.
  intros (Hm & Hws & Hev & Hdn & Hrp & (l & Hl & Hall) & Hup & Hdown) Hpath.
  destruct (mapget (watcher.watchedDirs fw) path) eqn:Hw.
  { rewrite (startWatching_watched _ _ Hw). simpl.
    repeat split; try done. by exists l. }
  destruct (startWatching_new path fw Hw)
    as (fw' & -> & Hm' & Hws' & Hev' & Hdn' & Hrp' & Hc' & Hd').
  simpl. repeat split; try congruence.
  - exists (l ++ [fsnotify.AddCall path]).
    rewrite Hc', Hl, app_assoc. split; [done|].
    apply Forall_app. split; [done|]. constructor; [eauto|constructor].
  - intros p Hp. rewrite Hd'. destruct (addAnswer fw path); [eauto|].
    apply mapget_insert_true. eauto.
  - intros p. rewrite Hd'. destruct (addAnswer fw path); [eauto|].
    intros [->|Hp]%mapget_insert_true; eauto.
Qed.

Lemma shouldIgnoreDir_run fw0 fw path :
  matcher_ok (watcher.matcher fw0) →
  watcher.matcher fw = watcher.matcher fw0 →
  ∃ b, watcher.shouldIgnoreDir path fw = Done (b, fw) ∧
       gitignore.ShouldIgnoreDir (watcher.matcher fw0) path = Done b.
Proof.
  intros Hok Hm. unfold watcher.shouldIgnoreDir, lift. rewrite Hm.
  destruct (ShouldIgnoreDir_total _ path Hok) as [b ->]. eauto.
Qed.

Lemma scanFn_grows fw0 path info err fw :
  matcher_ok (watcher.matcher fw0) →
  (info = None → err ≠ None) → grows fw0 fw →
  ∃ r fw', watcher.scanFn path info err fw = Done (r, fw') ∧ grows fw0 fw'.
Proof.
  intros Hok Hinfo Hg. unfold watcher.scanFn.
  destruct err as [e|]; [unfold ret; eauto|].
  destruct info as [[d]|]; [|by destruct Hinfo].
  unfold bind at 1. simpl. unfold ret at 1.
  destruct d; [|unfold ret; eauto].
  unfold bind at 1.
  destruct (shouldIgnoreDir_run fw0 fw path Hok) as (b & -> & Hb);
    [apply Hg|].
  destruct b; [unfold ret; eauto|].
  unfold bind, call.
  pose proof (grows_startWatching fw0 fw path Hg Hb) as Hg'.
  destruct (watcher.startWatching path fw) as [[e|] fw']; unfold ret; eauto.
Qed.

Lemma subdirFn_grows fw0 name path info err fw :
  matcher_ok (watcher.matcher fw0) →
  (info = None → err ≠ None) → grows fw0 fw →
  ∃ r fw', watcher.subdirFn name path info err fw = Done (r, fw') ∧
           grows fw0 fw'.
Proof.
  intros Hok Hinfo Hg. unfold watcher.subdirFn.
  destruct err as [e|]; [unfold ret; eauto|].
  destruct info as [[d]|]; [|by destruct Hinfo].
  unfold bind at 1. simpl. unfold ret at 1.
  destruct (d && negb (String.eqb path name)); [|unfold ret; eauto].
  unfold bind at 1.
  destruct (shouldIgnoreDir_run fw0 fw path Hok) as (b & -> & Hb);
    [apply Hg|].
  destruct b; [unfold ret; eauto|].
  unfold bind, call.
  pose proof (grows_startWatching fw0 fw path Hg Hb) as Hg'.
  destruct (watcher.startWatching path fw) as [e fw']; unfold ret; eauto.
Qed.

Lemma scanWorkspace_grows w fw :
  matcher_ok (watcher.matcher fw) →
  ∃ r fw', watcher.scanWorkspace w fw = Done (r, fw') ∧ grows fw fw'.
Proof.
  intros Hok. unfold watcher.scanWorkspace.
  apply (Walk_keeps watcher.scanFn (grows fw)); [|apply grows_refl].
  intros path info err s Hinfo Hs. by apply scanFn_grows.
Qed.

Lemma subwalk_grows w name fw0 fw :
  matcher_ok (watcher.matcher fw0) → grows fw0 fw →
  ∃ r fw', walking.Walk (watcher.subdirFn name) w name fw = Done (r, fw') ∧
           grows fw0 fw'.
Proof.
  intros Hok Hg.
  apply (Walk_keeps (watcher.subdirFn name) (grows fw0)); [|done].
  intros path info err s Hinfo Hs. by apply subdirFn_grows.
Qed.

Lemma Inv_grows m fw0 fw :
  Inv m fw0 → grows fw0 fw → Inv m fw.
Proof.
  intros (Hm0 & Hcalls & Hevs & Hdirs)
         (Hm & _ & Hev & _ & _ & (l & Hl & Hall) & _ & Hdown).
  subst m. repeat split.
  - done.
  - rewrite Hl. apply Forall_app. split; [done|].
    eapply Forall_impl; [exact Hall|].
    intros c (p & -> & Hp) q [= <-]. done.
  - by rewrite Hev.
  - intros p [Hp|Hp]%Hdown; eauto.
Qed.

Lemma shouldIgnore_run fw path :
  matcher_ok (watcher.matcher fw) →
  ∃ b, watcher.shouldIgnore path fw = Done (b, fw) ∧
       gitignore.ShouldIgnore (watcher.matcher fw) path = Done b.
Proof.
  intros Hok. unfold watcher.shouldIgnore, lift.
  destruct (ShouldIgnore_total _ path Hok) as [b ->]. eauto.
Qed.

Lemma handleFsEvent_ignored w selectDone ev fw :
  gitignore.ShouldIgnore (watcher.matcher fw) (fsnotify.Name ev) = Done true →
  watcher.handleFsEvent w selectDone ev fw = Done (tt, fw).
Proof.
  intros Hi. unfold watcher.handleFsEvent, bind, watcher.shouldIgnore, lift.
  by rewrite Hi.
Qed.

(** A notification for a path that does not stat as a directory only
    ever sends: the watcher and the watched set stay as they are. *)
Lemma handleFsEvent_not_dir w selectDone ev fw :
  gitignore.ShouldIgnore (watcher.matcher fw) (fsnotify.Name ev) = Done false →
  (∀ fi, os.Stat w (fsnotify.Name ev) = Some fi → os.IsDir fi = false) →
  ∃ fw', watcher.handleFsEvent w selectDone ev fw = Done (tt, fw') ∧
    watcher.matcher fw' = watcher.matcher fw ∧
    watcher.watcher fw' = watcher.watcher fw ∧
    watcher.watchedDirs fw' = watcher.watchedDirs fw ∧
    ∃ l, watcher.events fw' = watcher.events fw ++ l ∧
         Forall (λ e, watcher.Path e = fsnotify.Name ev) l.
Proof.
  intros Hign Hstat.
  unfold watcher.handleFsEvent, bind, watcher.shouldIgnore, lift.
  rewrite Hign.
  assert (match os.Stat w (fsnotify.Name ev) with
          | Some fileInfo => os.IsDir fileInfo
          | None => false
          end = false) as ->.
  { destruct (os.Stat w (fsnotify.Name ev)) eqn:E; [by apply Hstat|done]. }
  destruct (watcher.eventTypeOf _); unfold call, watcher.send, ret.
  - destruct (watcher.done fw && selectDone); eexists; simpl;
      repeat split; try done.
    + exists []. by rewrite app_nil_r.
    + eexists. split; [done|]. by repeat constructor.
  - eexists. repeat split; try done. exists []. by rewrite app_nil_r.
Qed.

(** A Create notification for a path that stats as a directory asks for
    a watch on it and walks it. *)
Lemma handleFsEvent_create_dir w selectDone ev fi fw :
  matcher_ok (watcher.matcher fw) →
  gitignore.ShouldIgnore (watcher.matcher fw) (fsnotify.Name ev) = Done false →
  os.Stat w (fsnotify.Name ev) = Some fi → os.IsDir fi = true →
  fsnotify.has (fsnotify.Op_ ev) fsnotify.Create = true →
  ∃ fw', watcher.handleFsEvent w selectDone ev fw = Done (tt, fw') ∧
    grows fw fw' ∧
    (mapget (watcher.watchedDirs fw) (fsnotify.Name ev) = false →
     fsnotify.AddCall (fsnotify.Name ev) ∈ fsnotify.calls (watcher.watcher fw') ∧
     (addAnswer fw (fsnotify.Name ev) = None →
      mapget (watcher.watchedDirs fw') (fsnotify.Name ev) = true)).
Proof.
  intros Hok Hign Hstat Hdir Hop.
  unfold watcher.handleFsEvent, bind at 1, watcher.shouldIgnore, lift.
  rewrite Hign, Hstat, Hdir, Hop. unfold bind at 1, call.
  pose proof (grows_startWatching fw fw (fsnotify.Name ev) (grows_refl fw)
                (ShouldIgnore_false_Dir _ _ Hign)) as Hg1.
  destruct (mapget (watcher.watchedDirs fw) (fsnotify.Name ev)) eqn:Hw.
  { rewrite (startWatching_watched _ _ Hw) in Hg1 |- *. simpl in *.
    unfold bind.
    destruct (subwalk_grows w (fsnotify.Name ev) fw fw Hok Hg1)
      as (r & fw2 & -> & Hg2).
    unfold ret. eexists. split; [done|]. split; [done|]. done. }
  destruct (startWatching_new _ fw Hw)
    as (fw1 & E & _ & _ & _ & _ & _ & Hc1 & Hd1).
  rewrite E in Hg1 |- *. simpl in Hg1.
  destruct (addAnswer fw (fsnotify.Name ev)) as [e|] eqn:Ha.
  - unfold ret. eexists. split; [done|]. split; [done|]. intros _.
    split; [|done]. rewrite Hc1. set_solver.
  - unfold bind.
    destruct (subwalk_grows w (fsnotify.Name ev) fw fw1 Hok Hg1)
      as (r & fw2 & E2 & Hg2).
    destruct (subwalk_grows w (fsnotify.Name ev) fw1 fw1)
      as (r' & fw2' & E2' & Hg12);
      [by destruct Hg1 as (-> & _)|apply grows_refl|].
    rewrite E2 in E2'. injection E2' as <- <-. rewrite E2.
    unfold ret. eexists. split; [done|]. split; [done|]. intros _.
    destruct Hg12 as (_ & _ & _ & _ & _ & (l & Hl & _) & Hup & _).
    split.
    + rewrite Hl, Hc1. set_solver.
    + intros _. apply Hup. rewrite Hd1. apply mapget_insert.
Qed.

(** Without the Create flag, a notification for a path that stats as a
    directory stops the watch when Remove or Rename is set, and does
    nothing otherwise. *)
Lemma handleFsEvent_dir_other w selectDone ev fi fw :
  gitignore.ShouldIgnore (watcher.matcher fw) (fsnotify.Name ev) = Done false →
  os.Stat w (fsnotify.Name ev) = Some fi → os.IsDir fi = true →
  fsnotify.has (fsnotify.Op_ ev) fsnotify.Create = false →
  watcher.handleFsEvent w selectDone ev fw =
    Done (tt, if fsnotify.has (fsnotify.Op_ ev)
                   (Z.lor fsnotify.Remove fsnotify.Rename)
              then watcher.stopWatching (fsnotify.Name ev) fw
              else fw).
Proof.
  intros Hign Hstat Hdir Hop.
  unfold watcher.handleFsEvent, bind at 1, watcher.shouldIgnore, lift.
  rewrite Hign, Hstat, Hdir, Hop.
  by destruct (fsnotify.has _ (Z.lor _ _)).
Qed.

Lemma stopWatching_Inv m path fw :
  Inv m fw → Inv m (watcher.stopWatching path fw).
Proof.
  intros (Hm & Hcalls & Hevs & Hdirs). unfold watcher.stopWatching.
  destruct (mapget (watcher.watchedDirs fw) path); [|done].
  simpl. repeat split; try done.
  - apply Forall_app. split; [done|]. by repeat constructor.
  - intros p Hp%mapget_delete_true. by apply Hdirs.
Qed.

Lemma handleFsEvent_Inv m w selectDone ev fw :
  matcher_ok m → Inv m fw →
  ∃ fw', watcher.handleFsEvent w selectDone ev fw = Done (tt, fw') ∧
         Inv m fw'.
Proof.
  intros Hok HI. pose proof HI as (Hm & Hcalls & Hevs & Hdirs).
  rewrite <- Hm in Hok.
  destruct (ShouldIgnore_total _ (fsnotify.Name ev) Hok) as [[|] Hign].
  { rewrite (handleFsEvent_ignored _ _ _ _ Hign). eauto. }
  destruct (os.Stat w (fsnotify.Name ev)) as [[[|]]|] eqn:Hstat.
  - destruct (fsnotify.has (fsnotify.Op_ ev) fsnotify.Create) eqn:Hop.
    + destruct (handleFsEvent_create_dir w selectDone ev _ fw Hok Hign Hstat
                  eq_refl Hop) as (fw' & E & Hg & _).
      exists fw'. split; [done|]. by eapply Inv_grows.
    + rewrite (handleFsEvent_dir_other w selectDone ev _ fw Hign Hstat
                 eq_refl Hop).
      eexists. split; [done|].
      destruct (fsnotify.has _ (Z.lor _ _)); [by apply stopWatching_Inv|done].
  - destruct (handleFsEvent_not_dir w selectDone ev fw Hign)
      as (fw' & E & Hm' & Hw' & Hd' & l & Hl & Hall).
    { intros fi. rewrite Hstat. by intros [= <-]. }
    exists fw'. split; [done|]. repeat split.
    + congruence.
    + by rewrite Hw'.
    + rewrite Hl. apply Forall_app. split; [done|].
      eapply Forall_impl; [exact Hall|]. intros e ->. by rewrite <- Hm.
    + by rewrite Hd'.
  - destruct (handleFsEvent_not_dir w selectDone ev fw Hign)
      as (fw' & E & Hm' & Hw' & Hd' & l & Hl & Hall).
    { intros fi. by rewrite Hstat. }
    exists fw'. split; [done|]. repeat split.
    + congruence.
    + by rewrite Hw'.
    + rewrite Hl. apply Forall_app. split; [done|].
      eapply Forall_impl; [exact Hall|]. intros e ->. by rewrite <- Hm.
    + by rewrite Hd'.
Qed.

Lemma eventLoop_Inv m inputs fw :
  matcher_ok m → Inv m fw →
  ∃ fw', watcher.eventLoop inputs fw = Done (tt, fw') ∧ Inv m fw'.
Proof.
  intros Hok. revert fw.
  induction inputs as [|[| | |err|event w selectDone] rest IH];
    intros fw HI; simpl.
  1-4: unfold ret; by eauto.
  - by apply IH.
  - unfold bind.
    destruct (handleFsEvent_Inv m w selectDone event fw Hok HI)
      as (fw1 & -> & HI1).
    by apply IH.
Qed.

Lemma Start_Inv m w inputs fw :
  matcher_ok m → Inv m fw →
  ∃ r fw', watcher.Start w inputs fw = Done (r, fw') ∧ Inv m fw'.
Proof.
  intros Hok HI. unfold watcher.Start, bind at 1.
  destruct (scanWorkspace_grows w fw) as (r & fw1 & -> & Hg).
  { by destruct HI as (-> & _). }
  pose proof (Inv_grows m fw fw1 HI Hg) as HI1.
  destruct r as [e|]; [unfold ret; eauto|].
  unfold bind.
  destruct (eventLoop_Inv m inputs fw1 Hok HI1) as (fw2 & -> & HI2).
  unfold ret. eauto.
Qed.

Lemma NewFileWatcher_Inv w nw ws dbg fw :
  watcher.NewFileWatcher w nw ws dbg = inl fw →
  matcher_ok (watcher.matcher fw) ∧ Inv (watcher.matcher fw) fw ∧
  watcher.workspacePath fw = ws ∧
  gitignore.workspacePath (watcher.matcher fw) = ws.
Proof.
  unfold watcher.NewFileWatcher.
  destruct (gitignore.NewMatcher w ws) as [m|e] eqn:Hm; [|done].
  destruct nw as [reply|e]; [|done]. intros [= <-]. simpl.
  split; [by eapply NewMatcher_ok|].
  split; [|split; [done|by eapply NewMatcher_fields]].
  repeat split; try constructor. intros p. by unfold mapget.
Qed.

(** C3 (amended). Let the watcher be built by [NewFileWatcher] and run
    by [Start] on any initial tree and any sequence of inputs, and let
    [ShouldIgnore(p)] be true.  The run returns; no FileEvent for [p] is
    on the stream, as [handleFsEvent] returns at once on a notification
    for [p]; and when [p] is not the workspace root, no watch was asked
    for on [p] and [p] is not in the watched set. *)
Theorem ignored_paths_are_silent w nw ws dbg fw0 w' inputs (p : string) :
  watcher.NewFileWatcher w nw ws dbg = inl fw0 →
  gitignore.ShouldIgnore (watcher.matcher fw0) p = Done true →
  ∃ r fw, watcher.Start w' inputs fw0 = Done (r, fw) ∧
    watcher.matcher fw = watcher.matcher fw0 ∧
    (∀ w1 selectDone op,
        watcher.handleFsEvent w1 selectDone
          {| fsnotify.Name := p; fsnotify.Op_ := op |} fw = Done (tt, fw)) ∧
    (∀ e, e ∈ watcher.events fw → watcher.Path e ≠ p) ∧
    (p ≠ ws → stated.ignore_sound fw p).
Proof.
  intros Hnew Hign.
  destruct (NewFileWatcher_Inv _ _ _ _ _ Hnew) as (Hok & HI & _ & Hws).
  destruct (Start_Inv _ w' inputs fw0 Hok HI)
    as (r & fw & E & Hm & Hcalls & Hevs & Hdirs).
  exists r, fw. split; [done|]. split; [done|].
  assert (∀ e, e ∈ watcher.events fw → watcher.Path e ≠ p) as Hnoev.
  { intros e He Hp. rewrite Forall_forall in Hevs.
    specialize (Hevs e He). rewrite Hp in Hevs. congruence. }
  split; [|split; [done|]].
  { intros w1 selectDone op. apply handleFsEvent_ignored. simpl.
    by rewrite Hm. }
  intros Hne _. split; [done|].
  rewrite <- Hws in Hne.
  pose proof (ShouldIgnoreDir_not_root _ _ Hne) as Hdir.
  rewrite Hign in Hdir. split.
  - intros Hin. rewrite Forall_forall in Hcalls.
    specialize (Hcalls _ Hin p eq_refl). congruence.
  - destruct (mapget (watcher.watchedDirs fw) p) eqn:Hw; [|done].
    specialize (Hdirs p Hw). congruence.
Qed.

(** ** Where the code departs from the specification *)

(** The removal branch of [handleFsEvent] sits under [isDir], so it is
    never taken for a directory that is gone: after Create (seen while
    the directory exists) and any later notification seen once [os.Stat]
    fails, the directory is still in the watched set and no [Remove]
    call was made. *)
Lemma removed_directory_stays_watched w1 w2 sel1 sel2 p op2 fi fw :
  matcher_ok (watcher.matcher fw) →
  gitignore.ShouldIgnore (watcher.matcher fw) p = Done false →
  os.Stat w1 p = Some fi → os.IsDir fi = true →
  mapget (watcher.watchedDirs fw) p = false →
  addAnswer fw p = None →
  os.Stat w2 p = None →
  ∃ fw', watcher.eventLoop
           [ watcher.RawEvent
               {| fsnotify.Name := p; fsnotify.Op_ := fsnotify.Create |} w1 sel1;
             watcher.RawEvent
               {| fsnotify.Name := p; fsnotify.Op_ := op2 |} w2 sel2 ] fw
         = Done (tt, fw') ∧
    mapget (watcher.watchedDirs fw') p = true ∧
    watcher.watchedDirs fw' ≠ watcher.watchedDirs fw ∧
    ∃ l, fsnotify.calls (watcher.watcher fw') =
           fsnotify.calls (watcher.watcher fw) ++ l ∧
         Forall (λ c, ∃ q, c = fsnotify.AddCall q) l.
Proof.
  intros Hok Hign Hstat Hdir Hw Ha Hgone. simpl. unfold bind at 1.
  destruct (handleFsEvent_create_dir w1 sel1
              {| fsnotify.Name := p; fsnotify.Op_ := fsnotify.Create |}
              fi fw Hok Hign Hstat Hdir eq_refl)
    as (fw1 & -> & Hg & Hadd).
  destruct (Hadd Hw) as (_ & Hin). specialize (Hin Ha). simpl in Hin.
  destruct Hg as (Hm & _ & _ & _ & _ & (l & Hl & Hall) & _ & _).
  unfold bind at 1.
  destruct (handleFsEvent_not_dir w2 sel2
              {| fsnotify.Name := p; fsnotify.Op_ := op2 |} fw1)
    as (fw2 & -> & _ & Hw2 & Hd2 & _).
  { simpl. by rewrite Hm. }
  { simpl. intros fi'. by rewrite Hgone. }
  unfold ret. eexists. split; [done|]. rewrite Hd2, Hw2.
  split; [done|]. split; [by eapply mapget_true_ne|].
  exists l. split; [done|].
  eapply Forall_impl; [exact Hall|]. intros c (q & -> & _). eauto.
Qed.

Lemma matchesDefault_In relPath pattern patterns :
  pattern ∈ patterns →
  strings.HasPrefix relPath pattern = true →
  gitignore.matchesDefault relPath patterns = true.
Proof.
  intros Hin Hpre. induction patterns as [|q rest IH]; simpl.
  - by apply elem_of_nil in Hin.
  - apply elem_of_cons in Hin as [<-|Hin].
    + by rewrite Hpre.
    + rewrite (IH Hin).
      by destruct (strings.HasPrefix relPath q || String.eqb relPath q).
Qed.

(** What the default pattern "node_modules/" does achieve: every path
    whose workspace-relative form starts with it is ignored, so no
    event is sent for a file inside node_modules. *)
Lemma inside_node_modules_ignored m path relPath :
  "node_modules/" ∈ gitignore.defaultIgnores m →
  Rel (gitignore.workspacePath m) path = Some relPath →
  strings.HasPrefix relPath "node_modules/" = true →
  gitignore.ShouldIgnore m path = Done true.
Proof.
  intros Hin Hrel Hpre. unfold gitignore.ShouldIgnore.
  destruct (index_Base path) as [c ->]. simpl.
  destruct (Ascii.eqb c "."); [done|].
  rewrite Hrel. unfold filepath.ToSlash.
  by rewrite (matchesDefault_In _ _ _ Hin Hpre).
Qed.

(** What it does not: the directory itself, whose workspace-relative
    form is "node_modules" without the slash, matches no default
    pattern; without a .gitignore it is not ignored, and a Create
    notification for it asks for a watch. *)
Lemma node_modules_directory_watched w selectDone path fi fw :
  gitignore.defaultIgnores (watcher.matcher fw)
    = [".git/"; ".DS_Store"; "node_modules/"] →
  gitignore.hasGitIgnore (watcher.matcher fw) = false →
  Rel (gitignore.workspacePath (watcher.matcher fw)) path
    = Some "node_modules" →
  strings.index (filepath.Base path) 0 ≠ Done "."%char →
  gitignore.ShouldIgnore (watcher.matcher fw) path = Done false ∧
  gitignore.ShouldIgnoreDir (watcher.matcher fw) path = Done false ∧
  (os.Stat w path = Some fi → os.IsDir fi = true →
   mapget (watcher.watchedDirs fw) path = false →
   ∃ fw', watcher.handleFsEvent w selectDone
            {| fsnotify.Name := path; fsnotify.Op_ := fsnotify.Create |} fw
          = Done (tt, fw') ∧
     fsnotify.AddCall path ∈ fsnotify.calls (watcher.watcher fw')).
Proof.
  intros Hdef Hgit Hrel Hdot.
  assert (gitignore.ShouldIgnore (watcher.matcher fw) path = Done false)
    as Hign.
  { unfold gitignore.ShouldIgnore.
    destruct (index_Base path) as [c Hc]. rewrite Hc in Hdot |- *. simpl.
    destruct (Ascii.eqb_spec c "."); [by subst|].
    by rewrite Hrel, Hdef, Hgit. }
  split; [done|]. split; [by apply ShouldIgnore_false_Dir|].
  intros Hstat Hdir Hw.
  destruct (handleFsEvent_create_dir w selectDone
              {| fsnotify.Name := path; fsnotify.Op_ := fsnotify.Create |}
              fi fw) as (fw' & E & _ & Hadd); try done.
  { intros Hg. by rewrite Hgit in Hg. }
  exists fw'. split; [done|]. by apply Hadd.
Qed.

End proofs.

(** * Further properties of the code *)

Section keeping.
Context `{!GoLibs}.

Lemma walk_keeps_res {S} (walkFn : walking.WalkFunc S) (I : S → Prop)
    (R : option error → Prop) :
  R None →
  (∀ path info err s,
      (info = None → err ≠ None) → I s →
      ∃ r s', walkFn path info err s = Done (r, s') ∧ I s' ∧ R r) →
  ∀ n path s, I s →
    ∃ r s', walking.walk walkFn path n s = Done (r, s') ∧ I s' ∧ R r.
Proof.
  intros HR Hfn n. induction n as [|readErr entries IHentries|err]
    using Node_induction; intros path s Hs; simpl.
  - apply Hfn; [done|done].
  - unfold bind at 1.
    destruct (Hfn path (Some walking.dirInfo) readErr s)
      as (err1 & s1 & -> & Hs1 & Hr1); [done|done|].
    destruct readErr as [e|]; [unfold ret; eauto|].
    destruct err1 as [e|]; [unfold ret; eauto|].
    clear Hs Hr1. revert s1 Hs1.
    induction IHentries as [|[name child] rest Hchild _ IHrest];
      intros s1 Hs1.
    + unfold ret; eauto.
    + unfold bind at 1. simpl in Hchild.
      destruct (Hchild (filepath.Join path name) s1 Hs1)
        as (err & s2 & -> & Hs2 & Hr2).
      destruct err as [[|msg]|]; destruct child;
        try (unfold ret; by eauto); by apply IHrest.
  - apply Hfn; [intros _; done|done].
Qed.

Lemma startWatching_matcher p fw :
  watcher.matcher (snd (watcher.startWatching p fw)) = watcher.matcher fw.
Proof.
  unfold watcher.startWatching.
  destruct (mapget _ _); [done|].
  by destruct (fsnotify.Add p (watcher.watcher fw)) as [[e|] w].
Qed.

Lemma stopWatching_matcher p fw :
  watcher.matcher (watcher.stopWatching p fw) = watcher.matcher fw.
Proof. unfold watcher.stopWatching. by destruct (mapget _ _). Qed.

Lemma send_matcher sel ev fw :
  watcher.matcher (snd (watcher.send sel ev fw)) = watcher.matcher fw.
Proof. unfold watcher.send. by destruct (_ && _). Qed.

(** Whatever [startWatching], [stopWatching] and the send keep, the scan,
    every handled notification, the event loop and [Start] keep, and they
    return. *)
Section invariant.
Variable J : watcher.FileWatcher → Prop.
Hypothesis J_start : ∀ p fw, J fw → J (snd (watcher.startWatching p fw)).
Hypothesis J_stop : ∀ p fw, J fw → J (watcher.stopWatching p fw).
Hypothesis J_send : ∀ sel ev fw, J fw → J (snd (watcher.send sel ev fw)).

Let K (m : gitignore.Matcher) (fw : watcher.FileWatcher) : Prop :=
  watcher.matcher fw = m ∧ J fw.

Lemma K_start m p fw : K m fw → K m (snd (watcher.startWatching p fw)).
Proof. intros [Hm HJ]. split; [by rewrite startWatching_matcher|auto]. Qed.

Lemma scanFn_keeps m path info err fw :
  matcher_ok m → (info = None → err ≠ None) → K m fw →
  ∃ r fw', watcher.scanFn path info err fw = Done (r, fw') ∧ K m fw'.
Proof.
  intros Hok Hinfo HK. unfold watcher.scanFn.
  destruct err as [e|]; [unfold ret; eauto|].
  destruct info as [[d]|]; [|by destruct Hinfo].
  unfold bind at 1. simpl. unfold ret at 1.
  destruct d; [|unfold ret; eauto].
  unfold bind at 1, watcher.shouldIgnoreDir, lift.
  pose proof HK as [Hm HJ]. rewrite Hm.
  destruct (ShouldIgnoreDir_total m path Hok) as [b ->].
  destruct b; [unfold ret; eauto|].
  unfold bind, call.
  pose proof (K_start m path fw HK) as HK'.
  destruct (watcher.startWatching path fw) as [[e|] fw']; unfold ret; eauto.
Qed.

Lemma subdirFn_keeps m name path info err fw :
  matcher_ok m → (info = None → err ≠ None) → K m fw →
  ∃ r fw', watcher.subdirFn name path info err fw = Done (r, fw') ∧ K m fw'.
Proof.
  intros Hok Hinfo HK. unfold watcher.subdirFn.
  destruct err as [e|]; [unfold ret; eauto|].
  destruct info as [[d]|]; [|by destruct Hinfo].
  unfold bind at 1. simpl. unfold ret at 1.
  destruct (d && negb (String.eqb path name)); [|unfold ret; eauto].
  unfold bind at 1, watcher.shouldIgnoreDir, lift.
  pose proof HK as [Hm HJ]. rewrite Hm.
  destruct (ShouldIgnoreDir_total m path Hok) as [b ->].
  destruct b; [unfold ret; eauto|].
  unfold bind, call.
  pose proof (K_start m path fw HK) as HK'.
  destruct (watcher.startWatching path fw) as [e fw']; unfold ret; eauto.
Qed.

Lemma scanWorkspace_keeps m w fw :
  matcher_ok m → K m fw →
  ∃ r fw', watcher.scanWorkspace w fw = Done (r, fw') ∧ K m fw'.
Proof.
  intros Hok HK. unfold watcher.scanWorkspace.
  apply (Walk_keeps watcher.scanFn (K m)); [|done].
  intros path info err s Hinfo Hs. by apply scanFn_keeps.
Qed.

Lemma handleFsEvent_keeps m w selectDone ev fw :
  matcher_ok m → K m fw →
  ∃ fw', watcher.handleFsEvent w selectDone ev fw = Done (tt, fw') ∧ K m fw'.
Proof.
  intros Hok HK. pose proof HK as [Hm HJ].
  unfold watcher.handleFsEvent, bind at 1, watcher.shouldIgnore, lift.
  rewrite Hm.
  destruct (ShouldIgnore_total m (fsnotify.Name ev) Hok) as [b ->].
  destruct b; [unfold ret; eauto|].
  destruct (match os.Stat w (fsnotify.Name ev) with
            | Some fileInfo => os.IsDir fileInfo
            | None => false
            end).
  - destruct (fsnotify.has (fsnotify.Op_ ev) fsnotify.Create).
    + unfold bind at 1, call.
      pose proof (K_start m (fsnotify.Name ev) fw HK) as HK1.
      destruct (watcher.startWatching (fsnotify.Name ev) fw) as [[e|] fw1];
        [unfold ret; eauto|].
      unfold bind. simpl in HK1.
      destruct (Walk_keeps (watcher.subdirFn (fsnotify.Name ev)) (K m))
        with (w := w) (root := fsnotify.Name ev) (s := fw1)
        as (r & fw2 & -> & HK2); [|done|unfold ret; eauto].
      intros path info err s Hinfo Hs. by apply subdirFn_keeps.
    + destruct (fsnotify.has _ (Z.lor _ _)); unfold call, ret;
        [|by eauto].
      eexists. split; [done|].
      split; [by rewrite stopWatching_matcher|auto].
  - destruct (watcher.eventTypeOf _); unfold call, ret; [|by eauto].
    destruct (watcher.send selectDone _ fw) as [[] fw'] eqn:E.
    eexists. split; [done|].
    replace fw' with (snd (watcher.send selectDone
      {| watcher.Path := fsnotify.Name ev; watcher.EventType := z |} fw))
      by (by rewrite E).
    split; [by rewrite send_matcher|auto].
Qed.

Lemma eventLoop_keeps m inputs fw :
  matcher_ok m → K m fw →
  ∃ fw', watcher.eventLoop inputs fw = Done (tt, fw') ∧ K m fw'.
Proof.
  intros Hok. revert fw.
  induction inputs as [|[| | |err|event w selectDone] rest IH];
    intros fw HK; simpl.
  1-4: unfold ret; by eauto.
  - by apply IH.
  - unfold bind.
    destruct (handleFsEvent_keeps m w selectDone event fw Hok HK)
      as (fw1 & -> & HK1).
    by apply IH.
Qed.

Lemma Start_keeps w inputs fw :
  matcher_ok (watcher.matcher fw) → J fw →
  ∃ r fw', watcher.Start w inputs fw = Done (r, fw') ∧
           watcher.matcher fw' = watcher.matcher fw ∧ J fw'.
Proof.
  intros Hok HJ. unfold watcher.Start, bind at 1.
  destruct (scanWorkspace_keeps (watcher.matcher fw) w fw Hok)
    as (r & fw1 & -> & HK1); [done|].
  destruct r as [e|]; [unfold ret; eauto|].
  unfold bind.
  destruct (eventLoop_keeps (watcher.matcher fw) inputs fw1 Hok HK1)
    as (fw2 & -> & HK2).
  unfold ret. eauto.
Qed.
End invariant.

End keeping.

Section further.
Context `{!GoLibs}.

(** ** The matcher and the construction of the watcher *)

Lemma existsb_sep_app (a b : string) :
  existsb filepath.IsPathSeparator (list_ascii_of_string (a +:+ b)) =
  existsb filepath.IsPathSeparator (list_ascii_of_string a)
  || existsb filepath.IsPathSeparator (list_ascii_of_string b).
Proof.
  induction a as [|c a IH]; simpl; [done|].
  by rewrite IH, orb_assoc.
Qed.

Lemma last_elem_element (t : string) :
  is_element t = true → filepath.last_elem t = t.
Proof.
  unfold is_element. intros Ht%negb_true_iff.
  destruct t as [|c t]; [done|]. cbn [filepath.last_elem]. by rewrite Ht.
Qed.

Lemma last_elem_after_sep (d t : string) :
  is_element t = true → filepath.last_elem (d +:+ "/" +:+ t) = t.
Proof.
  intros Ht. induction d as [|c d IH].
  - change ("" +:+ "/" +:+ t) with (String "/" t).
    cbn [filepath.last_elem]. simpl. by apply last_elem_element.
  - change (String c d +:+ "/" +:+ t) with (String c (d +:+ "/" +:+ t)).
    cbn [filepath.last_elem].
    assert (existsb filepath.IsPathSeparator
              (list_ascii_of_string (String c (d +:+ "/" +:+ t))) = true) as ->.
    { change (String c (d +:+ "/" +:+ t)) with (String c d +:+ String "/" t).
      rewrite existsb_sep_app. simpl. by rewrite orb_true_r. }
    exact IH.
Qed.

Lemma strip_trailing_element (t : string) :
  is_element t = true → filepath.strip_trailing t = t.
Proof.
  unfold is_element. induction t as [|c t IH]; [done|].
  simpl. intros [Hc Ht]%negb_true_iff%orb_false_iff.
  rewrite Hc. simpl. f_equal. apply IH. by rewrite Ht.
Qed.

Lemma strip_trailing_before_element (d t : string) :
  is_element t = true → t ≠ "" →
  filepath.strip_trailing (d +:+ t) = d +:+ t.
Proof.
  intros Ht Hne. induction d as [|c d IH].
  - by apply strip_trailing_element.
  - change (String c d +:+ t) with (String c (d +:+ t)).
    cbn [filepath.strip_trailing].
    assert (forallb filepath.IsPathSeparator
              (list_ascii_of_string (String c (d +:+ t))) = false) as ->.
    { apply not_true_is_false. intros Hall.
      rewrite forallb_forall in Hall.
      destruct t as [|a t]; [done|].
      unfold is_element in Ht. simpl in Ht.
      apply negb_true_iff, orb_false_iff in Ht as [Ha _].
      assert (filepath.IsPathSeparator a = true) as Ha'; [|congruence].
      apply Hall.
      change (String c (d +:+ String a t)) with (String c d +:+ String a t).
      clear. induction (String c d) as [|x y IH]; simpl; auto. }
    by rewrite IH.
Qed.

Lemma string_app_assoc (a b c : string) :
  (a +:+ b) +:+ c = a +:+ (b +:+ c).
Proof.
  induction a as [|x a IH]; [done|].
  change (String x ((a +:+ b) +:+ c) = String x (a +:+ b +:+ c)).
  by rewrite IH.
Qed.

(** The base name of [d/t] is [t], for a non-empty path element [t]. *)
Lemma Base_last_element (d t : string) :
  is_element t = true → t ≠ "" →
  filepath.Base (d +:+ "/" +:+ t) = t.
Proof.
  intros Ht Hne. unfold filepath.Base.
  assert (String.eqb (d +:+ "/" +:+ t) "" = false) as ->.
  { apply String.eqb_neq. by destruct d. }
  rewrite <- (string_app_assoc d "/" t).
  rewrite strip_trailing_before_element by done.
  rewrite string_app_assoc.
  rewrite last_elem_after_sep by done.
  by apply String.eqb_neq in Hne as ->.
Qed.

(** X1. Every path whose last element begins with a dot is ignored:
    [ShouldIgnore] is true of [dir/.name] for every directory part, every
    element [name] and every matcher, without consulting the workspace
    path, the default patterns or the .gitignore patterns. *)
Theorem dot_names_are_ignored (m : gitignore.Matcher) (dir name : string) :
  is_element name = true →
  gitignore.ShouldIgnore m (dir +:+ "/" +:+ "." +:+ name) = Done true.
Proof.
  intros Hname. unfold gitignore.ShouldIgnore.
  rewrite (Base_last_element dir ("." +:+ name)); [done| |done].
  unfold is_element in *. simpl. exact Hname.
Qed.


(** ** Starting and stopping watches *)

Lemma mapget_false_all_true (m : gmap string bool) (k : string) :
  all_true m → mapget m k = false → m !! k = None.
Proof.
  unfold mapget. intros Hall Hk. destruct (m !! k) as [b|] eqn:E; [|done].
  pose proof (Hall k b E) as ->. simpl in Hk. discriminate.
Qed.

Lemma mapget_lookup_true (m : gmap string bool) (k : string) :
  mapget m k = true ↔ m !! k = Some true.
Proof.
  unfold mapget. destruct (m !! k) as [[|]|]; simpl; split; congruence.
Qed.

(** X3. Watching a directory that is not in the watched set and
    stopping the watch right away gives back the watched set as it was,
    and the watcher has seen [Add] and then [Remove] for it; this holds
    whatever [Remove] answers, since its error is discarded. *)
Theorem start_then_stop (path : string) (fw : watcher.FileWatcher) :
  watcher.watchedDirs fw !! path = None →
  addAnswer fw path = None →
  let fw' := watcher.stopWatching path (snd (watcher.startWatching path fw)) in
  watcher.watchedDirs fw' = watcher.watchedDirs fw ∧
  fsnotify.calls (watcher.watcher fw') =
    fsnotify.calls (watcher.watcher fw)
      ++ [fsnotify.AddCall path; fsnotify.RemoveCall path] ∧
  watcher.events fw' = watcher.events fw.
Proof.
  intros Hnone Ha. simpl.
  assert (mapget (watcher.watchedDirs fw) path = false) as Hw
    by (unfold mapget; by rewrite Hnone).
  destruct (startWatching_new path fw Hw)
    as (fw1 & E & _ & _ & Hev & _ & _ & Hc & Hd).
  rewrite E. simpl. rewrite Ha in Hd.
  unfold watcher.stopWatching. rewrite Hd, mapget_insert. simpl.
  rewrite delete_insert_id by done.
  rewrite Hc, <- app_assoc. done.
Qed.

(** X4. After [stopWatching] the directory is not in the watched set,
    even when [Remove] fails; on a directory that is not watched
    [stopWatching] does nothing at all, so stopping twice is stopping
    once. *)
Theorem stopWatching_unwatches (path : string) (fw : watcher.FileWatcher) :
  mapget (watcher.watchedDirs (watcher.stopWatching path fw)) path = false ∧
  watcher.stopWatching path (watcher.stopWatching path fw)
    = watcher.stopWatching path fw ∧
  (mapget (watcher.watchedDirs fw) path = false →
   watcher.stopWatching path fw = fw).
Proof.
  assert (mapget (watcher.watchedDirs (watcher.stopWatching path fw)) path
          = false) as Hgone.
  { unfold watcher.stopWatching.
    destruct (mapget (watcher.watchedDirs fw) path) eqn:Hw; [|done].
    simpl. apply mapget_delete. }
  split; [done|]. split.
  - unfold watcher.stopWatching at 1. by rewrite Hgone.
  - intros Hw. unfold watcher.stopWatching. by rewrite Hw.
Qed.

(** X5. When the watch on a newly created directory cannot be added,
    [handleFsEvent] gives up on it: the one failed [Add] call is all that
    happened; the directory is not walked, nothing below it is watched,
    and no FileEvent is sent. *)
Theorem failed_watch_skips_walk w selectDone ev fi e
    (fw : watcher.FileWatcher) :
  gitignore.ShouldIgnore (watcher.matcher fw) (fsnotify.Name ev) = Done false →
  os.Stat w (fsnotify.Name ev) = Some fi → os.IsDir fi = true →
  fsnotify.has (fsnotify.Op_ ev) fsnotify.Create = true →
  mapget (watcher.watchedDirs fw) (fsnotify.Name ev) = false →
  addAnswer fw (fsnotify.Name ev) = Some e →
  ∃ fw', watcher.handleFsEvent w selectDone ev fw = Done (tt, fw') ∧
    watcher.watchedDirs fw' = watcher.watchedDirs fw ∧
    watcher.events fw' = watcher.events fw ∧
    fsnotify.calls (watcher.watcher fw') =
      fsnotify.calls (watcher.watcher fw) ++ [fsnotify.AddCall (fsnotify.Name ev)].
Proof.
  intros Hign Hstat Hdir Hop Hw Ha.
  unfold watcher.handleFsEvent, bind at 1, watcher.shouldIgnore, lift.
  rewrite Hign, Hstat, Hdir, Hop. unfold bind at 1, call.
  destruct (startWatching_new _ fw Hw)
    as (fw1 & E & _ & _ & Hev & _ & _ & Hc & Hd).
  rewrite E, Ha. unfold ret. rewrite Ha in Hd. eauto.
Qed.

(** X6. A notification for a path that stats as a directory never puts
    a FileEvent on the stream, whatever its flags and whatever the
    directory holds. *)
Theorem directories_send_nothing w selectDone ev fi
    (fw : watcher.FileWatcher) :
  matcher_ok (watcher.matcher fw) →
  os.Stat w (fsnotify.Name ev) = Some fi → os.IsDir fi = true →
  ∃ fw', watcher.handleFsEvent w selectDone ev fw = Done (tt, fw') ∧
         watcher.events fw' = watcher.events fw.
Proof.
  intros Hok Hstat Hdir.
  destruct (ShouldIgnore_total _ (fsnotify.Name ev) Hok) as [[|] Hign].
  { rewrite (handleFsEvent_ignored _ _ _ _ Hign). eauto. }
  destruct (fsnotify.has (fsnotify.Op_ ev) fsnotify.Create) eqn:Hop.
  - destruct (handleFsEvent_create_dir w selectDone ev fi fw Hok Hign Hstat
                Hdir Hop) as (fw' & E & Hg & _).
    exists fw'. split; [done|]. apply Hg.
  - rewrite (handleFsEvent_dir_other w selectDone ev fi fw Hign Hstat Hdir Hop).
    eexists. split; [done|].
    destruct (fsnotify.has _ (Z.lor _ _)); [|done].
    unfold watcher.stopWatching. by destruct (mapget _ _).
Qed.

(** ** Walks *)

(** A visitor that answers an error on a directory ends the walk of that
    directory there. *)
Lemma walk_Dir_stop {S} (walkFn : walking.WalkFunc S) path entries e
    (s s' : S) :
  walkFn path (Some walking.dirInfo) None s = Done (Some e, s') →
  walking.walk walkFn path (os.Dir None entries) s = Done (Some e, s').
Proof. intros E. simpl. unfold bind at 1. by rewrite E. Qed.

(** X7. None of the three walks enters an ignored directory: on a
    directory that [ShouldIgnoreDir] rejects, the scan, the walk below a
    new directory and the listing return [SkipDir] at once and leave
    their state as it was, whatever the directory holds. *)
Theorem ignored_directories_are_pruned path entries
    (fw : watcher.FileWatcher) (files : list string) (eventName : string) :
  gitignore.ShouldIgnoreDir (watcher.matcher fw) path = Done true →
  walking.walk watcher.scanFn path (os.Dir None entries) fw
    = Done (Some SkipDir, fw) ∧
  (path ≠ eventName →
   walking.walk (watcher.subdirFn eventName) path (os.Dir None entries) fw
     = Done (Some SkipDir, fw)) ∧
  walking.walk (watcher.listFn (watcher.matcher fw)) path
    (os.Dir None entries) files = Done (Some SkipDir, files).
Proof.
  intros Hign. split; [|split].
  - simpl. unfold bind at 1, watcher.scanFn, bind at 1. simpl.
    unfold ret at 1, bind at 1, watcher.shouldIgnoreDir, lift.
    by rewrite Hign.
  - intros Hne%String.eqb_neq. simpl.
    unfold bind at 1, watcher.subdirFn, bind at 1. simpl.
    unfold ret at 1. rewrite Hne. simpl.
    unfold bind at 1, watcher.shouldIgnoreDir, lift.
    by rewrite Hign.
  - simpl. unfold bind at 1, watcher.listFn, bind at 1. simpl.
    unfold ret at 1, bind at 1, lift.
    by rewrite Hign.
Qed.

(** X8. A failed initial scan is fatal for [Start]: it returns the
    error of the scan and handles no input.  In particular, when the
    workspace root cannot be lstat'ed, [Start] returns that error and the
    watcher is as it was. *)
Theorem failed_scan_stops_Start w inputs (fw : watcher.FileWatcher) :
  (∀ e fw', watcher.scanWorkspace w fw = Done (Some e, fw') →
            watcher.Start w inputs fw = Done (Some e, fw')) ∧
  (∀ msg, os.Tree w (watcher.workspacePath fw) = os.Missing (Err msg) →
          watcher.Start w inputs fw = Done (Some (Err msg), fw)).
Proof.
  split.
  - intros e fw' E. unfold watcher.Start, bind. by rewrite E.
  - intros msg Htree. unfold watcher.Start, bind at 1.
    unfold watcher.scanWorkspace, walking.Walk, bind. rewrite Htree. done.
Qed.

(** X9. The scan stops at the first watch that cannot be added: when
    [Add] fails on the workspace root, [Start] returns that error with
    the watched set unchanged, the failed call being the only one made;
    nothing below the root is visited and no input is handled. *)
Theorem failed_root_watch_stops_Start w inputs entries msg
    (fw : watcher.FileWatcher) :
  watcher.workspacePath fw = gitignore.workspacePath (watcher.matcher fw) →
  os.Tree w (watcher.workspacePath fw) = os.Dir None entries →
  mapget (watcher.watchedDirs fw) (watcher.workspacePath fw) = false →
  addAnswer fw (watcher.workspacePath fw) = Some (Err msg) →
  ∃ fw', watcher.Start w inputs fw = Done (Some (Err msg), fw') ∧
    watcher.watchedDirs fw' = watcher.watchedDirs fw ∧
    watcher.events fw' = watcher.events fw ∧
    fsnotify.calls (watcher.watcher fw') =
      fsnotify.calls (watcher.watcher fw)
        ++ [fsnotify.AddCall (watcher.workspacePath fw)].
Proof.
  intros Hws Htree Hw Ha.
  destruct (startWatching_new _ fw Hw)
    as (fw1 & E & _ & _ & Hev & _ & _ & Hc & Hd).
  rewrite Ha in E, Hd.
  exists fw1. split; [|done].
  assert (watcher.scanFn (watcher.workspacePath fw) (Some walking.dirInfo)
            None fw = Done (Some (Err msg), fw1)) as Hfn.
  { unfold watcher.scanFn, bind at 1. simpl.
    unfold ret at 1, bind at 1, watcher.shouldIgnoreDir, lift.
    assert (gitignore.ShouldIgnoreDir (watcher.matcher fw)
              (watcher.workspacePath fw) = Done false) as ->
      by (rewrite Hws; apply ShouldIgnoreDir_root).
    unfold bind, call. by rewrite E. }
  assert (walking.walk watcher.scanFn (watcher.workspacePath fw)
            (os.Dir None entries) fw = Done (Some (Err msg), fw1)) as Hwalk.
  { by apply walk_Dir_stop. }
  unfold watcher.Start, bind at 1.
  unfold watcher.scanWorkspace, walking.Walk, bind at 1.
  rewrite Htree, Hwalk. done.
Qed.

(** ** The initial listing *)

Lemma listFn_keeps m (P : string → Prop) path info err (files : list string) :
  matcher_ok m →
  (∀ f, gitignore.ShouldIgnore m f = Done false → P f) →
  (info = None → err ≠ None) → Forall P files →
  ∃ r files', watcher.listFn m path info err files = Done (r, files') ∧
    Forall P files' ∧ (r = None ∨ r = Some SkipDir).
Proof.
  intros Hok HP Hinfo Hfiles. unfold watcher.listFn.
  destruct err as [e|]; [unfold ret; eauto 10|].
  destruct info as [[d]|]; [|by destruct Hinfo].
  unfold bind at 1. simpl. unfold ret at 1.
  destruct d; unfold bind, lift.
  - destruct (ShouldIgnoreDir_total m path Hok) as [b ->].
    destruct b; unfold ret; eauto 10.
  - destruct (ShouldIgnore_total m path Hok) as [b Hb]. rewrite Hb.
    destruct b; unfold ret, call; [eauto 10|].
    eexists _, _. split; [done|]. split; [|by left].
    apply Forall_app. split; [done|]. constructor; [auto|constructor].
Qed.

Lemma Walk_listFn m (P : string → Prop) w root (files : list string) :
  matcher_ok m →
  (∀ f, gitignore.ShouldIgnore m f = Done false → P f) →
  Forall P files →
  ∃ files', walking.Walk (watcher.listFn m) w root files = Done (None, files') ∧
            Forall P files'.
Proof.
  intros Hok HP Hfiles. unfold walking.Walk, bind.
  destruct (walk_keeps_res (watcher.listFn m) (Forall P)
              (λ r, r = None ∨ r = Some SkipDir))
    with (n := os.Tree w root) (path := root) (s := files)
    as (r & files' & -> & Hfiles' & [->| ->]); try done.
  - by left.
  - intros path info err s Hinfo Hs. by apply listFn_keeps.
  - unfold ret. eauto.
  - unfold ret. eauto.
Qed.

(** X10. [GetInitialFiles] never returns an error: its visitor swallows
    every error of the walk, so the outcome is always a list.  When the
    workspace root itself cannot be lstat'ed the list is empty. *)
Theorem GetInitialFiles_never_fails w (fw : watcher.FileWatcher) :
  matcher_ok (watcher.matcher fw) →
  (∃ files, watcher.GetInitialFiles w fw = Done (inl files)) ∧
  (∀ e, os.Tree w (watcher.workspacePath fw) = os.Missing e →
        watcher.GetInitialFiles w fw = Done (inl [])).
Proof.
  intros Hok. split.
  - unfold watcher.GetInitialFiles.
    destruct (Walk_listFn (watcher.matcher fw) (λ _, True) w
                (watcher.workspacePath fw) [] Hok) as (files & -> & _);
      eauto.
  - intros e Htree. unfold watcher.GetInitialFiles, walking.Walk, bind.
    by rewrite Htree.
Qed.

(** X11. Every path in the initial listing is one that [ShouldIgnore]
    lets through: no dot file, nothing under a default pattern and
    nothing the .gitignore excludes is listed. *)
Theorem GetInitialFiles_lists_unignored w (fw : watcher.FileWatcher)
    (files : list string) :
  matcher_ok (watcher.matcher fw) →
  watcher.GetInitialFiles w fw = Done (inl files) →
  Forall (λ f, gitignore.ShouldIgnore (watcher.matcher fw) f = Done false)
    files.
Proof.
  intros Hok. unfold watcher.GetInitialFiles.
  destruct (Walk_listFn (watcher.matcher fw)
              (λ f, gitignore.ShouldIgnore (watcher.matcher fw) f = Done false)
              w (watcher.workspacePath fw) [] Hok) as (files' & -> & Hall);
    [auto|constructor|].
  by intros [= <-].
Qed.

(** ** Invariants of the running watcher *)

Lemma all_true_insert (m : gmap string bool) (k : string) :
  all_true m → all_true (<[k := true]> m).
Proof.
  intros Hall k' b. destruct (decide (k = k')) as [->|Hne].
  - rewrite lookup_insert_eq. by intros [= <-].
  - rewrite lookup_insert_ne by done. apply Hall.
Qed.

Lemma all_true_delete (m : gmap string bool) (k : string) :
  all_true m → all_true (delete k m).
Proof.
  intros Hall k' b. destruct (decide (k = k')) as [->|Hne].
  - by rewrite lookup_delete_eq.
  - rewrite lookup_delete_ne by done. apply Hall.
Qed.

Lemma backed_startWatching p fw :
  backed fw → backed (snd (watcher.startWatching p fw)).
Proof.
  intros [Hall Hback].
  destruct (mapget (watcher.watchedDirs fw) p) eqn:Hw.
  { by rewrite (startWatching_watched _ _ Hw). }
  destruct (startWatching_new p fw Hw)
    as (fw1 & -> & _ & _ & _ & _ & _ & Hc & Hd).
  simpl. split.
  - rewrite Hd. destruct (addAnswer fw p); [done|]. by apply all_true_insert.
  - intros q. rewrite Hd, Hc. destruct (addAnswer fw p).
    + intros Hq. apply elem_of_app. left. by apply Hback.
    + intros [->|Hq]%mapget_insert_true; apply elem_of_app.
      * right. by apply list_elem_of_singleton.
      * left. by apply Hback.
Qed.

Lemma backed_stopWatching p fw :
  backed fw → backed (watcher.stopWatching p fw).
Proof.
  intros [Hall Hback]. unfold watcher.stopWatching.
  destruct (mapget (watcher.watchedDirs fw) p); [|done].
  simpl. split; [by apply all_true_delete|].
  intros q Hq%mapget_delete_true. apply elem_of_app. left. by apply Hback.
Qed.

Lemma backed_send sel ev fw :
  backed fw → backed (snd (watcher.send sel ev fw)).
Proof. unfold watcher.send. by destruct (_ && _). Qed.

(** X12. Throughout a run of [Start], every directory in the watched
    set has its [Add] call in the watcher's log and is stored with the
    value [true]: the set never claims a watch that was not asked for. *)
Theorem watched_set_is_backed w inputs (fw : watcher.FileWatcher) :
  matcher_ok (watcher.matcher fw) → backed fw →
  ∃ r fw', watcher.Start w inputs fw = Done (r, fw') ∧ backed fw'.
Proof.
  intros Hok Hb.
  destruct (Start_keeps backed backed_startWatching backed_stopWatching
              backed_send w inputs fw Hok Hb) as (r & fw' & E & _ & Hb').
  eauto.
Qed.

Lemma extends_startWatching fw0 p fw :
  extends fw0 fw ∧ watcher.done fw = watcher.done fw0 →
  extends fw0 (snd (watcher.startWatching p fw)) ∧
  watcher.done (snd (watcher.startWatching p fw)) = watcher.done fw0.
Proof.
  intros [[Hev Hc] Hd].
  destruct (mapget (watcher.watchedDirs fw) p) eqn:Hw.
  { by rewrite (startWatching_watched _ _ Hw). }
  destruct (startWatching_new p fw Hw)
    as (fw1 & -> & _ & _ & Hev1 & Hd1 & _ & Hc1 & _).
  simpl. rewrite Hd1. split; [|done]. split.
  - by rewrite Hev1.
  - rewrite Hc1. by apply prefix_app_r.
Qed.

Lemma extends_stopWatching fw0 p fw :
  extends fw0 fw ∧ watcher.done fw = watcher.done fw0 →
  extends fw0 (watcher.stopWatching p fw) ∧
  watcher.done (watcher.stopWatching p fw) = watcher.done fw0.
Proof.
  intros [[Hev Hc] Hd]. unfold watcher.stopWatching.
  destruct (mapget (watcher.watchedDirs fw) p); [|done].
  simpl. split; [|done]. split; [done|]. by apply prefix_app_r.
Qed.

Lemma extends_send fw0 sel ev fw :
  extends fw0 fw ∧ watcher.done fw = watcher.done fw0 →
  extends fw0 (snd (watcher.send sel ev fw)) ∧
  watcher.done (snd (watcher.send sel ev fw)) = watcher.done fw0.
Proof.
  intros [[Hev Hc] Hd]. unfold watcher.send.
  destruct (_ && _); [done|].
  simpl. split; [|done]. split; [|done]. by apply prefix_app_r.
Qed.

(** X13. [Start] only ever appends: the FileEvents sent before the run
    are a prefix of those sent after it, the watcher calls made before
    are a prefix of those made after, and [done] is not touched.  No event
    is withdrawn or reordered. *)
Theorem stream_is_append_only w inputs (fw : watcher.FileWatcher) :
  matcher_ok (watcher.matcher fw) →
  ∃ r fw', watcher.Start w inputs fw = Done (r, fw') ∧
    extends fw fw' ∧ watcher.done fw' = watcher.done fw.
Proof.
  intros Hok.
  destruct (Start_keeps
              (λ x, extends fw x ∧ watcher.done x = watcher.done fw)
              (extends_startWatching fw) (extends_stopWatching fw)
              (extends_send fw) w inputs fw Hok)
    as (r & fw' & E & _ & Hext & Hd).
  { by split. }
  eauto.
Qed.

(** X14. The event loop stops at the first cancellation or closed
    channel: whatever follows it is never handled.  Up to there it handles
    the inputs one after the other, so running it on [l1 ++ l2] is running
    it on [l1] and then on [l2] when nothing in [l1] stops it. *)
Theorem eventLoop_sequencing (l1 l2 : list watcher.Input)
    (fw : watcher.FileWatcher) :
  (∀ stop, goes_on stop = false →
     watcher.eventLoop (l1 ++ stop :: l2) fw = watcher.eventLoop l1 fw) ∧
  (forallb goes_on l1 = true →
     watcher.eventLoop (l1 ++ l2) fw =
       (let! _ := watcher.eventLoop l1 in watcher.eventLoop l2) fw).
Proof.
  split.
  - intros stop Hstop. revert fw.
    induction l1 as [|[| | |err|event w selectDone] rest IH]; intros fw;
      simpl; try done.
    + by destruct stop.
    + unfold bind.
      destruct (watcher.handleFsEvent w selectDone event fw) as [[[] fw1]|];
        [apply IH|done].
  - revert fw.
    induction l1 as [|[| | |err|event w selectDone] rest IH]; intros fw;
      simpl; try done.
    + apply IH.
    + intros Hrest. unfold bind in IH |- *.
      destruct (watcher.handleFsEvent w selectDone event fw) as [[[] fw1]|];
        [by apply IH|done].
Qed.

(** ** The synchronizer over whole streams *)

Lemma succeeded_after_snoc reply kind before l c :
  succeeded_after reply kind before (l ++ [c]) =
  (succeeded_after reply kind before l
   + if kind c && bool_decide (reply (before ++ l) c = None) then 1 else 0)%nat.
Proof.
  revert before. induction l as [|x l IH]; intros before; simpl.
  - rewrite app_nil_r. lia.
  - rewrite IH, <- app_assoc. simpl. lia.
Qed.

Lemma registerFile_reply w path s :
  mcp_golang.reply (server.mcpServer (snd (server.registerFile w path s)))
  = mcp_golang.reply (server.mcpServer s).
Proof.
  unfold server.registerFile. destruct (mapget _ _); [done|].
  unfold resources.RegisterFileResource, mcp_golang.invoke.
  by destruct (mcp_golang.reply _ _ _).
Qed.

Lemma unregisterFile_reply w path s :
  mcp_golang.reply (server.mcpServer (snd (server.unregisterFile w path s)))
  = mcp_golang.reply (server.mcpServer s).
Proof.
  unfold server.unregisterFile. destruct (negb _); [done|].
  unfold resources.DeregisterFileResource, mcp_golang.invoke.
  by destruct (mcp_golang.reply _ _ _).
Qed.

Lemma succeeded_snoc kind s s' c :
  mcp_golang.reply (server.mcpServer s') = mcp_golang.reply (server.mcpServer s) →
  mcp_golang.calls (server.mcpServer s') =
    mcp_golang.calls (server.mcpServer s) ++ [c] →
  succeeded kind s' =
    (succeeded kind s
     + if kind c && bool_decide (answer s c = None) then 1 else 0)%nat.
Proof.
  intros Hr Hc. unfold succeeded, answer.
  by rewrite Hr, Hc, succeeded_after_snoc.
Qed.

Lemma balanced_registerFile w path s :
  balanced s → balanced (snd (server.registerFile w path s)).
Proof.
  intros [Hall Hbal].
  destruct (mapget (server.registeredFiles s) path) eqn:Hreg.
  { by rewrite (registerFile_registered _ _ _ Hreg). }
  pose proof (registerFile_reply w path s) as Hr.
  destruct (registerFile_fresh w path s Hreg) as (s1 & E & Hc & Ht).
  rewrite E in Hr |- *. simpl in *. unfold balanced.
  rewrite (succeeded_snoc mcp_golang.isRegister s s1 _ Hr Hc).
  rewrite (succeeded_snoc mcp_golang.isDeregister s s1 _ Hr Hc).
  rewrite Ht. simpl.
  destruct (answer s (registerCall w path s)) as [e|] eqn:Ha.
  - rewrite bool_decide_eq_false_2 by done. split; [done|lia].
  - rewrite bool_decide_eq_true_2 by done.
    split; [by apply all_true_insert|].
    rewrite map_size_insert_None by (by apply mapget_false_all_true). lia.
Qed.

Lemma balanced_unregisterFile w path s :
  balanced s → balanced (snd (server.unregisterFile w path s)).
Proof.
  intros [Hall Hbal].
  destruct (mapget (server.registeredFiles s) path) eqn:Hreg.
  2:{ by rewrite (unregisterFile_absent _ _ _ Hreg). }
  pose proof (unregisterFile_reply w path s) as Hr.
  destruct (unregisterFile_present w path s Hreg) as (s1 & E & Hc & Ht).
  rewrite E in Hr |- *. simpl in *. unfold balanced.
  rewrite (succeeded_snoc mcp_golang.isRegister s s1 _ Hr Hc).
  rewrite (succeeded_snoc mcp_golang.isDeregister s s1 _ Hr Hc).
  rewrite Ht. simpl.
  destruct (answer s (deregisterCall w path)) as [e|] eqn:Ha.
  - rewrite bool_decide_eq_false_2 by done. split; [done|lia].
  - rewrite bool_decide_eq_true_2 by done.
    split; [by apply all_true_delete|].
    apply mapget_lookup_true in Hreg.
    rewrite map_size_delete_Some by eauto.
    assert (size (server.registeredFiles s) ≠ 0).
    { intros Hz%map_size_empty_inv. rewrite Hz in Hreg. done. }
    lia.
Qed.

Lemma balanced_handleFileEvent w ev s :
  balanced s → balanced (server.handleFileEvent w ev s).
Proof.
  intros Hb. unfold server.handleFileEvent, server.updateFile.
  repeat case_match; auto using balanced_registerFile, balanced_unregisterFile.
Qed.

Lemma balanced_registerAll w files s :
  balanced s → balanced (server.registerAll w files s).
Proof.
  revert s. induction files as [|f files IH]; intros s Hb; simpl; [done|].
  by apply IH, balanced_registerFile.
Qed.

(** X15. The table keeps count with the registry: after the initial
    registration of any list of files and any stream of FileEvents, the
    number of paths in the table is the number of [Register] calls the
    registry accepted minus the number of [Deregister] calls it accepted,
    and no entry holds [false]; refused calls change neither side. *)
Theorem table_counts_accepted_calls w files inputs (s : server.MCPServer) :
  balanced s →
  balanced (consumer.processFileEvents inputs (server.registerAll w files s)).
Proof.
  intros Hb. apply (balanced_registerAll w files) in Hb.
  revert Hb. generalize (server.registerAll w files s). clear s.
  induction inputs as [|[| |w' ev] rest IH]; intros s Hb; simpl; try done.
  by apply IH, balanced_handleFileEvent.
Qed.

(** X16. With a registry that accepts the two calls, a Create event
    followed by a Delete event for a path that was not in the table gives
    the table back as it was, after one [Register] and one [Deregister]
    call. *)
Theorem create_then_delete_event w1 w2 path (s : server.MCPServer) :
  server.registeredFiles s !! path = None →
  accepting s →
  let s' :=
    server.handleFileEvent w2
      {| watcher.Path := path; watcher.EventType := watcher.EventDelete |}
      (server.handleFileEvent w1
         {| watcher.Path := path; watcher.EventType := watcher.EventCreate |} s) in
  server.registeredFiles s' = server.registeredFiles s ∧
  mcp_golang.calls (server.mcpServer s') =
    mcp_golang.calls (server.mcpServer s)
      ++ [registerCall w1 path s; deregisterCall w2 path].
Proof.
  intros Hnone Hacc. simpl.
  assert (mapget (server.registeredFiles s) path = false) as Hreg
    by (unfold mapget; by rewrite Hnone).
  unfold server.handleFileEvent. simpl.
  pose proof (registerFile_reply w1 path s) as Hr.
  destruct (registerFile_fresh w1 path s Hreg) as (s1 & E & Hc & Ht).
  rewrite E in Hr |- *. simpl in *.
  unfold answer in Ht. rewrite Hacc in Ht.
  assert (mapget (server.registeredFiles s1) path = true) as Hreg1
    by (rewrite Ht; apply mapget_insert).
  destruct (unregisterFile_present w2 path s1 Hreg1) as (s2 & E2 & Hc2 & Ht2).
  rewrite E2. simpl. unfold answer in Ht2. rewrite Hr, Hacc in Ht2.
  rewrite Ht2, Ht, Hc2, Hc, <- app_assoc.
  by rewrite delete_insert_id.
Qed.

Lemma registerFile_table w path s :
  server.registeredFiles (snd (server.registerFile w path s))
    = server.registeredFiles s ∨
  (answer s (registerCall w path s) = None ∧
   server.registeredFiles (snd (server.registerFile w path s))
     = <[path := true]> (server.registeredFiles s)).
Proof.
  destruct (mapget (server.registeredFiles s) path) eqn:Hreg.
  { rewrite (registerFile_registered _ _ _ Hreg). by left. }
  destruct (registerFile_fresh w path s Hreg) as (s1 & E & _ & Ht).
  rewrite E. simpl. rewrite Ht.
  destruct (answer s (registerCall w path s)); [by left|by right].
Qed.

Lemma registerFile_accepting w path s :
  accepting s →
  accepting (snd (server.registerFile w path s)) ∧
  mapget (server.registeredFiles (snd (server.registerFile w path s))) path
    = true.
Proof.
  intros Hacc. split.
  - intros l c. rewrite registerFile_reply. apply Hacc.
  - destruct (mapget (server.registeredFiles s) path) eqn:Hreg.
    { by rewrite (registerFile_registered _ _ _ Hreg). }
    destruct (registerFile_fresh w path s Hreg) as (s1 & E & _ & Ht).
    rewrite E. simpl. unfold answer in Ht. rewrite Hacc in Ht.
    rewrite Ht. apply mapget_insert.
Qed.

Lemma registerFile_keeps_entries w path s p :
  mapget (server.registeredFiles s) p = true →
  mapget (server.registeredFiles (snd (server.registerFile w path s))) p = true.
Proof.
  intros Hp. destruct (registerFile_table w path s) as [->|[_ ->]]; [done|].
  apply mapget_insert_true. by right.
Qed.

Lemma registerFile_new_entries w path s p :
  mapget (server.registeredFiles (snd (server.registerFile w path s))) p = true →
  mapget (server.registeredFiles s) p = true ∨ p = path.
Proof.
  destruct (registerFile_table w path s) as [->|[_ ->]]; [by left|].
  intros [->|Hp]%mapget_insert_true; auto.
Qed.

Lemma unregisterFile_new_entries w path s p :
  mapget (server.registeredFiles (snd (server.unregisterFile w path s))) p = true →
  mapget (server.registeredFiles s) p = true.
Proof.
  destruct (mapget (server.registeredFiles s) path) eqn:Hreg.
  2:{ by rewrite (unregisterFile_absent _ _ _ Hreg). }
  destruct (unregisterFile_present w path s Hreg) as (s1 & E & _ & Ht).
  rewrite E. simpl. rewrite Ht.
  destruct (answer s (deregisterCall w path)); [done|].
  apply mapget_delete_true.
Qed.

Lemma registerAll_entries w files s :
  (∀ p, mapget (server.registeredFiles s) p = true →
        mapget (server.registeredFiles (server.registerAll w files s)) p = true) ∧
  (∀ p, mapget (server.registeredFiles (server.registerAll w files s)) p = true →
        mapget (server.registeredFiles s) p = true ∨ p ∈ files) ∧
  (accepting s →
   ∀ f, f ∈ files →
        mapget (server.registeredFiles (server.registerAll w files s)) f = true).
Proof.
  revert s. induction files as [|x files IH]; intros s; simpl.
  { split; [done|]. split; [by left|]. intros _ f Hf. by apply elem_of_nil in Hf. }
  destruct (IH (snd (server.registerFile w x s))) as (IH1 & IH2 & IH3).
  split; [|split].
  - intros p Hp. by apply IH1, registerFile_keeps_entries.
  - intros p [[Hp| ->]%registerFile_new_entries|Hp]%IH2.
    + by left.
    + right. apply elem_of_cons. by left.
    + right. apply elem_of_cons. by right.
  - intros Hacc f Hf.
    destruct (registerFile_accepting w x s Hacc) as [Hacc' Hx].
    apply elem_of_cons in Hf as [->|Hf]; [by apply IH1|by apply IH3].
Qed.

(** X17. [registerExistingFiles] never returns an error: the listing
    cannot fail and a refused registration is only logged, the remaining
    files still being tried.  It removes nothing from the table, adds
    only listed files, and with a registry that accepts every call all
    listed files are in the table afterwards. *)
Theorem registerExistingFiles_outcome w (s : server.MCPServer) :
  matcher_ok (watcher.matcher (server.watcher s)) →
  ∃ files s',
    watcher.GetInitialFiles w (server.watcher s) = Done (inl files) ∧
    server.registerExistingFiles w s = Done (None, s') ∧
    (∀ p, mapget (server.registeredFiles s) p = true →
          mapget (server.registeredFiles s') p = true) ∧
    (∀ p, mapget (server.registeredFiles s') p = true →
          mapget (server.registeredFiles s) p = true ∨ p ∈ files) ∧
    (accepting s → ∀ f, f ∈ files → mapget (server.registeredFiles s') f = true).
Proof.
  intros Hok. unfold server.registerExistingFiles, watcher.GetInitialFiles.
  destruct (Walk_listFn (watcher.matcher (server.watcher s)) (λ _, True) w
              (watcher.workspacePath (server.watcher s)) [] Hok)
    as (files & -> & _); [done|constructor|].
  exists files, (server.registerAll w files s).
  split; [done|]. split; [done|]. apply registerAll_entries.
Qed.

Lemma handleFileEvent_new_entries w ev s p :
  mapget (server.registeredFiles (server.handleFileEvent w ev s)) p = true →
  mapget (server.registeredFiles s) p = true ∨ p = watcher.Path ev.
Proof.
  unfold server.handleFileEvent, server.updateFile.
  repeat case_match; eauto using registerFile_new_entries,
    unregisterFile_new_entries.
Qed.

Lemma processFileEvents_new_entries inputs s p :
  mapget (server.registeredFiles (consumer.processFileEvents inputs s)) p = true →
  mapget (server.registeredFiles s) p = true ∨
  ∃ w ev, consumer.Event w ev ∈ inputs ∧ watcher.Path ev = p.
Proof.
  revert s. induction inputs as [|[| |w ev] rest IH]; intros s; simpl; auto.
  intros [[Hp| ->]%handleFileEvent_new_entries
         |(w' & ev' & Hin & Hp)]%IH.
  - by left.
  - right. exists w, ev. split; [apply elem_of_cons; by left|done].
  - right. exists w', ev'. split; [apply elem_of_cons; by right|done].
Qed.

(** X18. No ignored path ever becomes a resource.  Take a watcher built
    by [NewFileWatcher] and a server holding it with an empty table; run
    the initial registration, run [Start] on any tree and inputs, and
    hand the server any selection of the FileEvents the watcher sent, in
    any order.  Then [ShouldIgnore] is false of every path in the table. *)
Theorem ignored_paths_never_registered w nw ws dbg fw0 w0 w1 inputs
    (s : server.MCPServer) :
  watcher.NewFileWatcher w nw ws dbg = inl fw0 →
  server.watcher s = fw0 →
  server.registeredFiles s = ∅ →
  ∃ s1 r fw,
    server.registerExistingFiles w0 s = Done (None, s1) ∧
    watcher.Start w1 inputs fw0 = Done (r, fw) ∧
    ∀ deliveries,
      (∀ w' ev, consumer.Event w' ev ∈ deliveries → ev ∈ watcher.events fw) →
      ∀ p, mapget (server.registeredFiles
                     (consumer.processFileEvents deliveries s1)) p = true →
           gitignore.ShouldIgnore (watcher.matcher fw0) p = Done false.
Proof.
  intros Hnew Hw Hempty.
  destruct (NewFileWatcher_Inv _ _ _ _ _ Hnew) as (Hok & HI & _ & _).
  destruct (Start_Inv _ w1 inputs fw0 Hok HI)
    as (r & fw & E & _ & _ & Hevs & _).
  rewrite <- Hw in Hok |- *.
  unfold server.registerExistingFiles, watcher.GetInitialFiles.
  destruct (Walk_listFn (watcher.matcher (server.watcher s))
              (λ f, gitignore.ShouldIgnore (watcher.matcher (server.watcher s)) f
                    = Done false)
              w0 (watcher.workspacePath (server.watcher s)) [] Hok)
    as (files & -> & Hall); [auto|constructor|].
  exists (server.registerAll w0 files s), r, fw.
  split; [done|]. split; [by rewrite Hw|].
  destruct (registerAll_entries w0 files s) as (_ & Hnew1 & _).
  intros deliveries Hdel p
    [[Hp|Hp]%Hnew1|(w' & ev & Hin & <-)]%processFileEvents_new_entries.
  - rewrite Hempty in Hp. done.
  - rewrite Forall_forall in Hall. by apply Hall.
  - rewrite Forall_forall in Hevs. rewrite Hw. apply Hevs. by eapply Hdel.
Qed.

(** ** Resources *)

(** X19. A file is deregistered under the URI it was registered under:
    for an absolute path the URI is "file://" followed by the cleaned
    path, whatever the working directory is at either moment, so the
    [Deregister] call of [unregisterFile] names the resource that the
    [Register] call of [registerFile] created. *)
Theorem absolute_paths_keep_their_URI w1 w2 path (s : server.MCPServer) :
  filepath.IsAbs path = true →
  resources.GetFileURI w1 path = "file://" +:+ filepath.Clean path ∧
  ∃ id description,
    registerCall w1 path s =
      mcp_golang.RegisterResource (resources.GetFileURI w1 path) id description ∧
    deregisterCall w2 path =
      mcp_golang.DeregisterResource (resources.GetFileURI w1 path).
Proof.
  intros Habs.
  assert (∀ w, resources.GetFileURI w path = "file://" +:+ filepath.Clean path)
    as Huri.
  { intros w. unfold resources.GetFileURI, filepath.Abs. by rewrite Habs. }
  split; [apply Huri|].
  unfold registerCall, deregisterCall. rewrite (Huri w2), (Huri w1). eauto.
Qed.

End further.

Section mime.
Context `{!MimeLibs}.

(** X20. [getFileMIMEType] never answers the empty string: it is the
    type [mime.TypeByExtension] knows for the extension, and otherwise
    "text/plain" or "application/octet-stream"; "text/plain" is chosen
    exactly when the lower-cased extension is in the table of text
    extensions. *)
Theorem getFileMIMEType_never_empty (path : string) :
  mimetype.getFileMIMEType path ≠ "" ∧
  (TypeByExtension (mimetype.Ext path) ≠ "" →
   mimetype.getFileMIMEType path = TypeByExtension (mimetype.Ext path)) ∧
  (TypeByExtension (mimetype.Ext path) = "" →
   mimetype.getFileMIMEType path =
     if bool_decide (is_Some (mimetype.textExts !! ToLower (mimetype.Ext path)))
     then "text/plain" else "application/octet-stream").
Proof.
  unfold mimetype.getFileMIMEType, mimetype.isLikelyTextFile.
  destruct (String.eqb_spec (TypeByExtension (mimetype.Ext path)) "")
    as [Hempty|Hknown].
  - assert (mapget mimetype.textExts (ToLower (mimetype.Ext path)) =
            bool_decide (is_Some (mimetype.textExts
                                    !! ToLower (mimetype.Ext path)))) as ->.
    { unfold mapget.
      destruct (mimetype.textExts !! ToLower (mimetype.Ext path))
        as [b|] eqn:E; simpl; [|done].
      apply elem_of_list_to_map_2, list_elem_of_In in E. simpl in E.
      repeat (destruct E as [[= _ <-]|E]; [done|]). done. }
    split; [by case_bool_decide|]. split; [done|]. done.
  - done.
Qed.

End mime.

(** ** Walks, as recursions over the tree *)

Section trees.
Context `{!GoLibs}.

Lemma walk_listFn_listed m :
  matcher_ok m →
  ∀ n path (files : list string),
    ∃ r, walking.walk (watcher.listFn m) path n files
           = Done (r, files ++ listed m path n) ∧
         (r = None ∨ r = Some SkipDir) ∧
         (n = os.File → r = None).
Proof.
  intros Hok n. induction n as [|readErr entries IHentries|err]
    using Node_induction; intros path files.
  - simpl. unfold watcher.listFn, bind at 1. simpl. unfold ret at 1.
    unfold bind, lift.
    destruct (ShouldIgnore_total m path Hok) as [[|] ->];
      unfold ret, call; simpl.
    + rewrite app_nil_r. eauto.
    + eauto.
  - cbn [walking.walk listed]. unfold bind at 1.
    destruct readErr as [e|].
    { simpl. unfold ret. rewrite app_nil_r. eauto. }
    unfold watcher.listFn at 1, bind at 1. simpl. unfold ret at 1.
    unfold bind at 1, lift.
    destruct (ShouldIgnoreDir_total m path Hok) as [[|] ->].
    { simpl. unfold ret. rewrite app_nil_r.
      eexists. split; [done|]. split; [by right|done]. }
    simpl. unfold ret at 1.
    assert (∀ files0 : list string,
      (fix names (l : list (string * os.Node)) : M (list string) (option error) :=
         match l with
         | [] => ret None
         | (name, child) :: rest =>
             let! err := walking.walk (watcher.listFn m)
                           (filepath.Join path name) child in
             match child, err with
             | _, None => names rest
             | os.Missing _, Some SkipDir => names rest
             | os.Dir _ _, Some SkipDir => names rest
             | _, Some e => ret (Some e)
             end
         end) entries files0
      = Done (None, files0 ++
          (fix below (l : list (string * os.Node)) : list string :=
             match l with
             | [] => []
             | (name, child) :: rest =>
                 listed m (filepath.Join path name) child ++ below rest
             end) entries)) as Hloop.
    { induction IHentries as [|[name child] rest Hchild _ IHrest];
        intros files0.
      - unfold ret. by rewrite app_nil_r.
      - unfold bind at 1. simpl in Hchild.
        destruct (Hchild (filepath.Join path name) files0)
          as (r & -> & [->| ->] & Hfile).
        + destruct child; by rewrite IHrest, <- app_assoc.
        + destruct child as [|e l|e]; [by specialize (Hfile eq_refl)| |];
            by rewrite IHrest, <- app_assoc. }
    rewrite Hloop. eauto.
  - simpl. unfold ret. rewrite app_nil_r. eauto.
Qed.

(** X21. The initial listing is the tree read off in order: the files
    that [ShouldIgnore] lets through, leaving out everything below an
    ignored directory, below a directory that cannot be read and at a path
    that cannot be lstat'ed.  Directories themselves are never listed. *)
Theorem GetInitialFiles_is_listed w (fw : watcher.FileWatcher) :
  matcher_ok (watcher.matcher fw) →
  watcher.GetInitialFiles w fw =
    Done (inl (listed (watcher.matcher fw) (watcher.workspacePath fw)
                 (os.Tree w (watcher.workspacePath fw)))).
Proof.
  intros Hok. unfold watcher.GetInitialFiles, walking.Walk, bind.
  destruct (walk_listFn_listed _ Hok (os.Tree w (watcher.workspacePath fw))
              (watcher.workspacePath fw) []) as (r & -> & [->| ->] & _);
    done.
Qed.

Lemma grows_trans fw1 fw2 fw3 :
  grows fw1 fw2 → grows fw2 fw3 → grows fw1 fw3.
Proof.
  intros (Hm & Hws & Hev & Hdn & Hrp & (l & Hl & Hall) & Hup & Hdown)
         (Hm' & Hws' & Hev' & Hdn' & Hrp' & (l' & Hl' & Hall') & Hup' & Hdown').
  repeat split; try congruence.
  - exists (l ++ l'). rewrite Hl', Hl, app_assoc. split; [done|].
    apply Forall_app. split; [done|]. by rewrite <- Hm.
  - auto.
  - intros p [Hp|Hp]%Hdown'; [auto|]. right. by rewrite <- Hm.
Qed.

Lemma startWatching_accepted path fw :
  (∀ l c, fsnotify.reply (watcher.watcher fw) l c = None) →
  fst (watcher.startWatching path fw) = None ∧
  mapget (watcher.watchedDirs (snd (watcher.startWatching path fw))) path = true.
Proof.
  intros Hacc. destruct (mapget (watcher.watchedDirs fw) path) eqn:Hw.
  { by rewrite (startWatching_watched _ _ Hw). }
  destruct (startWatching_new path fw Hw)
    as (fw1 & -> & _ & _ & _ & _ & _ & _ & Hd).
  unfold addAnswer in *. rewrite Hacc in Hd |- *. simpl.
  rewrite Hd. split; [done|apply mapget_insert].
Qed.

(** Completeness of a walk, for any visitor that lets files pass and,
    on a directory, either skips it because it is ignored or goes on
    with the directory watched. *)
Section complete.
Variable m : gitignore.Matcher.
Variable walkFn : walking.WalkFunc watcher.FileWatcher.
Variable pre : watcher.FileWatcher → Prop.
Hypothesis pre_grows : ∀ fw fw', pre fw → grows fw fw' → pre fw'.
Hypothesis on_file :
  ∀ path fw, walkFn path (Some walking.fileInfo) None fw = Done (None, fw).
Hypothesis on_dir :
  ∀ path fw,
    watcher.matcher fw = m →
    (∀ l c, fsnotify.reply (watcher.watcher fw) l c = None) →
    pre fw →
    ∃ r fw', walkFn path (Some walking.dirInfo) None fw = Done (r, fw') ∧
      grows fw fw' ∧
      ((r = Some SkipDir ∧ gitignore.ShouldIgnoreDir m path ≠ Done false) ∨
       (r = None ∧
        (gitignore.ShouldIgnoreDir m path = Done false →
         mapget (watcher.watchedDirs fw') path = true))).

Lemma walk_complete :
  ∀ n path fw,
    error_free n = true →
    watcher.matcher fw = m →
    (∀ l c, fsnotify.reply (watcher.watcher fw) l c = None) →
    pre fw →
    ∃ r fw', walking.walk walkFn path n fw = Done (r, fw') ∧
      (r = None ∨ r = Some SkipDir) ∧ (n = os.File → r = None) ∧
      grows fw fw' ∧
      ∀ p, p ∈ watchable m path n → mapget (watcher.watchedDirs fw') p = true.
Proof.
  intros n. induction n as [|readErr entries IHentries|err]
    using Node_induction; intros path fw Hfree Hm Hacc Hpre.
  - simpl. rewrite on_file.
    eexists _, _. split; [done|].
    split; [by left|]. split; [done|]. split; [apply grows_refl|].
    intros p Hp. by apply elem_of_nil in Hp.
  - destruct readErr as [e|]; [done|].
    cbn [walking.walk watchable]. unfold bind at 1.
    destruct (on_dir path fw Hm Hacc Hpre) as (r1 & fw1 & -> & Hg1 & Hcase).
    destruct Hcase as [[-> Hign]|[-> Hpath]].
    { unfold ret. eexists _, _. split; [done|].
      split; [by right|]. split; [done|]. split; [done|].
      intros p Hp.
      destruct (gitignore.ShouldIgnoreDir m path) as [[|]|];
        try (by apply elem_of_nil in Hp). done. }
    assert (∀ fwi, grows fw fwi →
      ∃ fw',
        (fix names (l : list (string * os.Node))
           : M watcher.FileWatcher (option error) :=
           match l with
           | [] => ret None
           | (name, child) :: rest =>
               let! err := walking.walk walkFn
                             (filepath.Join path name) child in
               match child, err with
               | _, None => names rest
               | os.Missing _, Some SkipDir => names rest
               | os.Dir _ _, Some SkipDir => names rest
               | _, Some e => ret (Some e)
               end
           end) entries fwi = Done (None, fw') ∧
        grows fwi fw' ∧
        ∀ p, p ∈ (fix below (l : list (string * os.Node)) : list string :=
                    match l with
                    | [] => []
                    | (name, child) :: rest =>
                        watchable m (filepath.Join path name) child
                          ++ below rest
                    end) entries →
             mapget (watcher.watchedDirs fw') p = true) as Hloop.
    { simpl in Hfree. clear Hpath Hg1 fw1.
      induction IHentries as [|[name child] rest Hchild _ IHrest];
        intros fwi Hgi.
      - unfold ret. eexists. split; [done|]. split; [apply grows_refl|].
        intros p Hp. by apply elem_of_nil in Hp.
      - apply andb_true_iff in Hfree as [Hfc Hfr].
        unfold bind at 1. simpl in Hchild.
        destruct (Hchild (filepath.Join path name) fwi Hfc)
          as (r & fw2 & -> & Hr & Hfile & Hg2 & Hw2).
        { destruct Hgi as (-> & _). done. }
        { intros l c. destruct Hgi as (_ & _ & _ & _ & -> & _). apply Hacc. }
        { by eapply pre_grows. }
        destruct (IHrest Hfr fw2 (grows_trans _ _ _ Hgi Hg2))
          as (fw' & E' & Hg' & Hw').
        exists fw'. split.
        { destruct Hr as [->| ->]; [by destruct child|].
          destruct child as [|e l|e]; [by specialize (Hfile eq_refl)|done|done]. }
        split; [by eapply grows_trans|].
        intros p [Hp|Hp]%elem_of_app; [|by apply Hw'].
        destruct Hg' as (_ & _ & _ & _ & _ & _ & Hup & _). by apply Hup, Hw2. }
    cbv beta iota.
    destruct (Hloop fw1 Hg1) as (fw' & -> & Hg' & Hw').
    eexists _, _. split; [done|]. split; [by left|]. split; [done|].
    split; [by eapply grows_trans|].
    intros p Hp.
    destruct (gitignore.ShouldIgnoreDir m path) as [[|]|] eqn:Hign;
      try (by apply elem_of_nil in Hp).
    apply elem_of_cons in Hp as [->|Hp]; [|by apply Hw'].
    destruct Hg' as (_ & _ & _ & _ & _ & _ & Hup & _). by apply Hup, Hpath.
  - done.
Qed.
End complete.

Lemma scanFn_on_dir m path fw :
  matcher_ok m → watcher.matcher fw = m →
  (∀ l c, fsnotify.reply (watcher.watcher fw) l c = None) →
  ∃ r fw', watcher.scanFn path (Some walking.dirInfo) None fw = Done (r, fw') ∧
    grows fw fw' ∧
    ((r = Some SkipDir ∧ gitignore.ShouldIgnoreDir m path ≠ Done false) ∨
     (r = None ∧
      (gitignore.ShouldIgnoreDir m path = Done false →
       mapget (watcher.watchedDirs fw') path = true))).
Proof.
  intros Hok Hm Hacc.
  unfold watcher.scanFn, bind at 1. simpl. unfold ret at 1.
  unfold bind at 1, watcher.shouldIgnoreDir, lift. rewrite Hm.
  destruct (ShouldIgnoreDir_total m path Hok) as [[|] Hign]; rewrite Hign.
  { unfold ret. eexists _, _. split; [done|]. split; [apply grows_refl|].
    left. done. }
  unfold bind, call.
  destruct (startWatching_accepted path fw Hacc) as [Hnone Hpath].
  pose proof (grows_startWatching fw fw path (grows_refl fw)) as Hg1.
  rewrite Hm in Hg1. specialize (Hg1 Hign).
  destruct (watcher.startWatching path fw) as [r1 fw1].
  simpl in Hnone, Hpath, Hg1. subst r1. unfold ret.
  eexists _, _. split; [done|]. split; [done|]. right. done.
Qed.

(** X22. The scan is complete: when every [Lstat] and directory read
    of the tree succeeds and the watcher accepts every [Add], the scan
    returns nil and every directory of the tree that is neither ignored nor
    below an ignored directory is in the watched set. *)
Theorem scan_watches_every_directory w (fw : watcher.FileWatcher) :
  matcher_ok (watcher.matcher fw) →
  error_free (os.Tree w (watcher.workspacePath fw)) = true →
  (∀ l c, fsnotify.reply (watcher.watcher fw) l c = None) →
  ∃ fw', watcher.scanWorkspace w fw = Done (None, fw') ∧
    ∀ p, p ∈ watchable (watcher.matcher fw) (watcher.workspacePath fw)
               (os.Tree w (watcher.workspacePath fw)) →
         mapget (watcher.watchedDirs fw') p = true.
Proof.
  intros Hok Hfree Hacc. unfold watcher.scanWorkspace, walking.Walk, bind.
  destruct (walk_complete (watcher.matcher fw) watcher.scanFn (λ _, True))
    with (n := os.Tree w (watcher.workspacePath fw))
         (path := watcher.workspacePath fw) (fw := fw)
    as (r & fw' & -> & [->| ->] & _ & _ & Hw); try done.
  - intros path fw0 Hm Hacc0 _. by apply scanFn_on_dir.
  - unfold ret. eauto.
  - unfold ret. eauto.
Qed.

Lemma subdirFn_on_dir m name path fw :
  matcher_ok m → watcher.matcher fw = m →
  (∀ l c, fsnotify.reply (watcher.watcher fw) l c = None) →
  mapget (watcher.watchedDirs fw) name = true →
  ∃ r fw', watcher.subdirFn name path (Some walking.dirInfo) None fw
             = Done (r, fw') ∧
    grows fw fw' ∧
    ((r = Some SkipDir ∧ gitignore.ShouldIgnoreDir m path ≠ Done false) ∨
     (r = None ∧
      (gitignore.ShouldIgnoreDir m path = Done false →
       mapget (watcher.watchedDirs fw') path = true))).
Proof.
  intros Hok Hm Hacc Hname.
  unfold watcher.subdirFn, bind at 1. simpl. unfold ret at 1.
  destruct (String.eqb_spec path name) as [->|Hne]; simpl.
  { unfold ret. eexists _, _. split; [done|]. split; [apply grows_refl|].
    right. done. }
  unfold bind at 1, watcher.shouldIgnoreDir, lift. rewrite Hm.
  destruct (ShouldIgnoreDir_total m path Hok) as [[|] Hign]; rewrite Hign.
  { unfold ret. eexists _, _. split; [done|]. split; [apply grows_refl|].
    left. done. }
  unfold bind, call.
  destruct (startWatching_accepted path fw Hacc) as [Hnone Hpath].
  pose proof (grows_startWatching fw fw path (grows_refl fw)) as Hg1.
  rewrite Hm in Hg1. specialize (Hg1 Hign).
  destruct (watcher.startWatching path fw) as [r1 fw1].
  simpl in Hnone, Hpath, Hg1. unfold ret.
  eexists _, _. split; [done|]. split; [done|]. right. done.
Qed.

(** X23. A new directory is watched with everything in it: on a Create
    notification for a directory that is not ignored, when every [Lstat]
    and directory read below it succeeds and the watcher accepts every
    [Add], the directory and every directory below it that is neither
    ignored nor below an ignored directory are in the watched set
    afterwards, and no FileEvent is sent. *)
Theorem new_directory_is_watched_recursively w selectDone ev fi
    (fw : watcher.FileWatcher) :
  matcher_ok (watcher.matcher fw) →
  gitignore.ShouldIgnore (watcher.matcher fw) (fsnotify.Name ev) = Done false →
  os.Stat w (fsnotify.Name ev) = Some fi → os.IsDir fi = true →
  fsnotify.has (fsnotify.Op_ ev) fsnotify.Create = true →
  error_free (os.Tree w (fsnotify.Name ev)) = true →
  (∀ l c, fsnotify.reply (watcher.watcher fw) l c = None) →
  ∃ fw', watcher.handleFsEvent w selectDone ev fw = Done (tt, fw') ∧
    mapget (watcher.watchedDirs fw') (fsnotify.Name ev) = true ∧
    (∀ p, p ∈ watchable (watcher.matcher fw) (fsnotify.Name ev)
                (os.Tree w (fsnotify.Name ev)) →
          mapget (watcher.watchedDirs fw') p = true) ∧
    watcher.events fw' = watcher.events fw.
Proof.
  intros Hok Hign Hstat Hdir Hop Hfree Hacc.
  unfold watcher.handleFsEvent, bind at 1, watcher.shouldIgnore, lift.
  rewrite Hign, Hstat, Hdir, Hop. unfold bind at 1, call.
  destruct (startWatching_accepted (fsnotify.Name ev) fw Hacc)
    as [Hnone Hname].
  pose proof (grows_startWatching fw fw (fsnotify.Name ev) (grows_refl fw)
                (ShouldIgnore_false_Dir _ _ Hign)) as Hg1.
  destruct (watcher.startWatching (fsnotify.Name ev) fw) as [r1 fw1].
  simpl in Hnone, Hname, Hg1. subst r1.
  unfold bind, walking.Walk, bind.
  destruct (walk_complete (watcher.matcher fw)
              (watcher.subdirFn (fsnotify.Name ev))
              (λ x, mapget (watcher.watchedDirs x) (fsnotify.Name ev) = true))
    with (n := os.Tree w (fsnotify.Name ev)) (path := fsnotify.Name ev)
         (fw := fw1)
    as (r & fw' & -> & Hr & _ & Hg & Hw); try done.
  - intros x x' Hx (_ & _ & _ & _ & _ & _ & Hup & _). by apply Hup.
  - intros path x Hm Hacc0 Hx. by apply subdirFn_on_dir.
  - by destruct Hg1 as (-> & _).
  - intros l c. destruct Hg1 as (_ & _ & _ & _ & -> & _). apply Hacc.
  - exists fw'.
    split; [by destruct Hr as [->| ->]|].
    pose proof (grows_trans _ _ _ Hg1 Hg)
      as (_ & _ & Hev & _ & _ & _ & _ & _).
    destruct Hg as (_ & _ & _ & _ & _ & _ & Hup & _).
    split; [apply Hup, Hname|]. split; [exact Hw|exact Hev].
Qed.

End trees.

(** * The code on concrete inputs *)

#[local] Existing Instance unix_libs.

Lemma freshWatcher_built (ws : string) :
  watcher.NewFileWatcher example.noFiles (inl example.accept) ws false
  = inl (example.freshWatcher ws).
Proof. reflexivity. Qed.

(** C1 (the code at the failing input). In the workspace /ws, the
    notifications of mkdir /ws/d (handled while the directory exists) and
    of rmdir /ws/d (handled once it is gone) leave /ws/d in the watched
    set, which was empty before: a watch was added, none was removed, and
    the removal went out as a Delete FileEvent for the directory. *)
Theorem mkdir_rmdir_leaves_watch :
  ∃ fw', watcher.eventLoop example.mkdir_rmdir
           (example.freshWatcher "/ws") = Done (tt, fw') ∧
    watcher.watchedDirs fw' = {[ "/ws/d" := true ]} ∧
    watcher.watchedDirs fw' ≠ watcher.watchedDirs (example.freshWatcher "/ws") ∧
    fsnotify.calls (watcher.watcher fw') = [fsnotify.AddCall "/ws/d"] ∧
    watcher.events fw' =
      [{| watcher.Path := "/ws/d"; watcher.EventType := watcher.EventDelete |}].
Proof.
  eexists. split; [vm_compute; reflexivity|].
  split; [vm_compute; reflexivity|].
  split; [|split; reflexivity].
  intros Heq. apply (f_equal (λ d, mapget d "/ws/d")) in Heq.
  vm_compute in Heq. discriminate.
Qed.

(** A consequence of the stale entry: when /ws/d is created again,
    [startWatching] takes it for watched and asks for no watch. *)
Lemma recreated_directory_not_rewatched :
  ∃ fw', watcher.eventLoop
           (example.mkdir_rmdir ++
            [watcher.RawEvent (example.create "/ws/d")
               (example.onlyDir "/ws/d" (os.Dir None [])) false])
           (example.freshWatcher "/ws") = Done (tt, fw') ∧
    fsnotify.calls (watcher.watcher fw') = [fsnotify.AddCall "/ws/d"].
Proof. eexists. split; [vm_compute; reflexivity|reflexivity]. Qed.

(** C2 (the code at the failing input). In the workspace /ws without a
    .gitignore, [ShouldIgnoreDir] answers [false] on /ws/node_modules, and
    the initial scan asks for a watch on it; only what lies inside it is
    ignored, such as /ws/node_modules/pkg and /ws/node_modules/index.js. *)
Theorem node_modules_is_watched :
  gitignore.ShouldIgnoreDir
    (watcher.matcher (example.freshWatcher "/ws")) "/ws/node_modules"
  = Done false ∧
  gitignore.ShouldIgnore
    (watcher.matcher (example.freshWatcher "/ws")) "/ws/node_modules/index.js"
  = Done true ∧
  ∃ fw', watcher.Start example.withNodeModules []
           (example.freshWatcher "/ws") = Done (None, fw') ∧
    fsnotify.calls (watcher.watcher fw') =
      [fsnotify.AddCall "/ws"; fsnotify.AddCall "/ws/node_modules"] ∧
    mapget (watcher.watchedDirs fw') "/ws/node_modules" = true.
Proof.
  split; [reflexivity|]. split; [reflexivity|].
  eexists. split; [vm_compute; reflexivity|].
  split; [reflexivity|]. vm_compute. reflexivity.
Qed.

(** C3 (as stated, refuted). For the workspace /home/u/.dotfiles,
    [ShouldIgnore] is true of the root, and the initial scan watches it. *)
Lemma dot_root_is_watched :
  ∃ fw, watcher.Start example.dotWorld []
          (example.freshWatcher example.dotRoot) = Done (None, fw) ∧
    ¬ stated.ignore_sound fw example.dotRoot.
Proof.
  eexists. split; [vm_compute; reflexivity|].
  intros Hsound. destruct Hsound as (_ & _ & Hw); [reflexivity|].
  vm_compute in Hw. discriminate.
Qed.

(** C4 (as stated, refuted). With a registry that refuses every call,
    two [onCreate] calls make two [Register] calls and two [onDelete]
    calls make two [Deregister] calls. *)
Lemma refused_calls_are_retried :
  ¬ stated.onCreate_twice example.noFiles "/ws/notes.txt"
      (example.serverWith example.refuse ∅) ∧
  ¬ stated.onDelete_twice example.noFiles "/ws/notes.txt"
      (example.serverWith example.refuse {[ "/ws/notes.txt" := true ]}).
Proof.
  split; intros [Hcount _]; vm_compute in Hcount; discriminate.
Qed.

(** ** Instances of the theorems *)

Lemma ignored_paths_are_silent_witness :
  ∃ r fw,
    watcher.Start
      (example.onlyDir "/ws" (os.Dir None [(".env", os.File)]))
      [watcher.RawEvent (example.create "/ws/.env") example.noFiles false]
      (example.freshWatcher "/ws") = Done (r, fw) ∧
    stated.ignore_sound fw "/ws/.env".
Proof.
  destruct (ignored_paths_are_silent example.noFiles
              (inl example.accept) "/ws" false (example.freshWatcher "/ws")
              (example.onlyDir "/ws" (os.Dir None [(".env", os.File)]))
              [watcher.RawEvent (example.create "/ws/.env") example.noFiles false]
              "/ws/.env" eq_refl eq_refl)
    as (r & fw & E & _ & _ & _ & Hsound).
  exists r, fw. split; [exact E|]. apply Hsound. discriminate.
Defined.

Lemma twice_registers_once_witness :
  stated.onCreate_twice example.noFiles "/ws/notes.txt"
    (example.serverWith example.accept ∅) ∧
  stated.onDelete_twice example.noFiles "/ws/notes.txt"
    (example.serverWith example.accept {[ "/ws/notes.txt" := true ]}).
Proof.
  split.
  - apply (proj1 (twice_registers_once example.noFiles
                    "/ws/notes.txt" (example.serverWith example.accept ∅)));
      vm_compute; reflexivity.
  - apply (proj2 (twice_registers_once example.noFiles
                    "/ws/notes.txt"
                    (example.serverWith example.accept
                       {[ "/ws/notes.txt" := true ]})));
      vm_compute; reflexivity.
Defined.

Lemma classification_precedence_witness :
  ∃ fw', watcher.handleFsEvent example.noFiles false
           {| fsnotify.Name := "/ws/notes.txt";
              fsnotify.Op_ := Z.lor fsnotify.Create fsnotify.Write |}
           (example.freshWatcher "/ws") = Done (tt, fw') ∧
    watcher.events fw' =
      [{| watcher.Path := "/ws/notes.txt";
          watcher.EventType := watcher.EventCreate |}].
Proof.
  destruct (classification_precedence example.noFiles false
              {| fsnotify.Name := "/ws/notes.txt";
                 fsnotify.Op_ := Z.lor fsnotify.Create fsnotify.Write |}
              (example.freshWatcher "/ws"))
    as (fw' & E & _ & Hev).
  - vm_compute. reflexivity.
  - intros fi. discriminate.
  - reflexivity.
  - exists fw'. split; [exact E|]. rewrite Hev. reflexivity.
Defined.

Lemma updateFile_spec_witness :
  server.updateFile example.noFiles "/ws/notes.txt"
    (example.serverWith example.accept {[ "/ws/notes.txt" := true ]})
  = (None, example.serverWith example.accept {[ "/ws/notes.txt" := true ]}) ∧
  server.updateFile example.noFiles "/ws/notes.txt"
    (example.serverWith example.accept ∅)
  = server.registerFile example.noFiles "/ws/notes.txt"
      (example.serverWith example.accept ∅).
Proof.
  split.
  - apply (proj1 (updateFile_spec example.noFiles "/ws/notes.txt"
                    (example.serverWith example.accept
                       {[ "/ws/notes.txt" := true ]}))).
    vm_compute. reflexivity.
  - apply (proj2 (updateFile_spec example.noFiles "/ws/notes.txt"
                    (example.serverWith example.accept ∅))).
    vm_compute. reflexivity.
Defined.

Lemma failure_keeps_table_witness :
  server.registeredFiles
    (snd (server.registerFile example.noFiles "/ws/notes.txt"
            (example.serverWith example.refuse ∅))) = ∅ ∧
  server.registeredFiles
    (snd (server.unregisterFile example.noFiles "/ws/notes.txt"
            (example.serverWith example.refuse {[ "/ws/notes.txt" := true ]})))
  = {[ "/ws/notes.txt" := true ]}.
Proof.
  split.
  - refine (proj1 (proj1 (failure_keeps_table example.noFiles
                    "/ws/notes.txt" (example.serverWith example.refuse ∅)
                    _ (Err "refused")) _)).
    vm_compute. reflexivity.
  - refine (proj1 (proj1 (proj2 (failure_keeps_table example.noFiles
                    "/ws/notes.txt"
                    (example.serverWith example.refuse
                       {[ "/ws/notes.txt" := true ]})
                    _ (Err "refused"))) _)).
    vm_compute. reflexivity.
Defined.

Lemma ShouldIgnore_returns_witness :
  gitignore.ShouldIgnore
    (watcher.matcher (example.freshWatcher "/ws")) "notes.txt" = Done false ∧
  ∃ b, gitignore.ShouldIgnore
         (watcher.matcher (example.freshWatcher "/ws")) "" = Done b.
Proof.
  split.
  - apply (ShouldIgnore_returns example.noFiles "/ws"
             (watcher.matcher (example.freshWatcher "/ws")) "notes.txt").
    + reflexivity.
    + discriminate.
    + reflexivity.
  - apply (ShouldIgnore_returns example.noFiles "/ws"
             (watcher.matcher (example.freshWatcher "/ws")) "").
    reflexivity.
Defined.

Lemma startWatching_spec_witness :
  watcher.startWatching "/ws/d"
    (snd (watcher.startWatching "/ws/d" (example.freshWatcher "/ws")))
  = (None, snd (watcher.startWatching "/ws/d" (example.freshWatcher "/ws"))) ∧
  watcher.watchedDirs
    (snd (watcher.startWatching "/ws/d"
            (watcher.with_watcher (fsnotify.NewWatcher example.refuse)
               (example.freshWatcher "/ws")))) = ∅.
Proof.
  split.
  - apply (proj1 (startWatching_spec "/ws/d"
                    (snd (watcher.startWatching "/ws/d"
                            (example.freshWatcher "/ws"))))).
    vm_compute. reflexivity.
  - apply (proj1 (proj2 (startWatching_spec "/ws/d"
                    (watcher.with_watcher (fsnotify.NewWatcher example.refuse)
                       (example.freshWatcher "/ws")))) (Err "refused")).
    + vm_compute. reflexivity.
    + reflexivity.
Defined.

(** ** Instances of the further properties *)

Lemma fresh_matcher_ok (ws : string) :
  matcher_ok (watcher.matcher (example.freshWatcher ws)).
Proof. intros Hg. discriminate. Qed.

Lemma fresh_backed (ws : string) : backed (example.freshWatcher ws).
Proof. split; [intros k b|intros p]; done. Qed.

Lemma fresh_balanced reply : balanced (example.serverWith reply ∅).
Proof. split; [intros k b; done|reflexivity]. Qed.

Lemma dot_names_are_ignored_witness :
  gitignore.ShouldIgnore (watcher.matcher (example.freshWatcher "/ws"))
    "/ws/.env" = Done true.
Proof.
  exact (dot_names_are_ignored
           (watcher.matcher (example.freshWatcher "/ws")) "/ws" "env" eq_refl).
Defined.

Lemma start_then_stop_witness :
  watcher.watchedDirs
    (watcher.stopWatching "/ws/d"
       (snd (watcher.startWatching "/ws/d" (example.freshWatcher "/ws")))) = ∅.
Proof.
  refine (proj1 (start_then_stop "/ws/d" (example.freshWatcher "/ws") _ _));
    reflexivity.
Defined.

Lemma stopWatching_unwatches_witness :
  watcher.stopWatching "/ws/d" (example.freshWatcher "/ws")
  = example.freshWatcher "/ws".
Proof.
  apply (proj2 (proj2 (stopWatching_unwatches "/ws/d"
                         (example.freshWatcher "/ws")))).
  reflexivity.
Defined.

Lemma failed_watch_skips_walk_witness :
  ∃ fw', watcher.handleFsEvent
           (example.onlyDir "/ws/d" (os.Dir None [("sub", os.Dir None [])]))
           false (example.create "/ws/d")
           (watcher.with_watcher (fsnotify.NewWatcher example.refuse)
              (example.freshWatcher "/ws")) = Done (tt, fw') ∧
    watcher.watchedDirs fw' = ∅.
Proof.
  destruct (failed_watch_skips_walk
              (example.onlyDir "/ws/d" (os.Dir None [("sub", os.Dir None [])]))
              false (example.create "/ws/d") walking.dirInfo (Err "refused")
              (watcher.with_watcher (fsnotify.NewWatcher example.refuse)
                 (example.freshWatcher "/ws")))
    as (fw' & E & Hd & _); try reflexivity.
  exists fw'. split; [exact E|exact Hd].
Defined.

Lemma directories_send_nothing_witness :
  ∃ fw', watcher.handleFsEvent
           (example.onlyDir "/ws/d" (os.Dir None [])) false
           (example.create "/ws/d") (example.freshWatcher "/ws")
         = Done (tt, fw') ∧
    watcher.events fw' = [].
Proof.
  destruct (directories_send_nothing
              (example.onlyDir "/ws/d" (os.Dir None [])) false
              (example.create "/ws/d") walking.dirInfo
              (example.freshWatcher "/ws") (fresh_matcher_ok "/ws"))
    as (fw' & E & Hev); try reflexivity.
  exists fw'. split; [exact E|exact Hev].
Defined.

Lemma ignored_directories_are_pruned_witness :
  walking.walk watcher.scanFn "/ws/.git"
    (os.Dir None [("config", os.File)]) (example.freshWatcher "/ws")
  = Done (Some SkipDir, example.freshWatcher "/ws").
Proof.
  apply (proj1 (ignored_directories_are_pruned "/ws/.git"
                  [("config", os.File)] (example.freshWatcher "/ws") []
                  "/ws/new" eq_refl)).
Defined.

Lemma failed_scan_stops_Start_witness :
  watcher.Start example.noFiles example.mkdir_rmdir (example.freshWatcher "/ws")
  = Done (Some example.notFound, example.freshWatcher "/ws").
Proof.
  apply (proj2 (failed_scan_stops_Start example.noFiles example.mkdir_rmdir
                  (example.freshWatcher "/ws"))
           "no such file or directory").
  reflexivity.
Defined.

Lemma failed_root_watch_stops_Start_witness :
  ∃ fw', watcher.Start example.withNodeModules example.mkdir_rmdir
           (watcher.with_watcher (fsnotify.NewWatcher example.refuse)
              (example.freshWatcher "/ws"))
         = Done (Some (Err "refused"), fw') ∧
    watcher.watchedDirs fw' = ∅.
Proof.
  destruct (failed_root_watch_stops_Start example.withNodeModules
              example.mkdir_rmdir
              [("node_modules",
                os.Dir None [("index.js", os.File); ("pkg", os.Dir None [])])]
              "refused"
              (watcher.with_watcher (fsnotify.NewWatcher example.refuse)
                 (example.freshWatcher "/ws")))
    as (fw' & E & Hd & _); try reflexivity.
  exists fw'. split; [exact E|exact Hd].
Defined.

Lemma GetInitialFiles_never_fails_witness :
  ∃ files, watcher.GetInitialFiles example.withNodeModules
             (example.freshWatcher "/ws") = Done (inl files).
Proof.
  exact (proj1 (GetInitialFiles_never_fails example.withNodeModules
                  (example.freshWatcher "/ws") (fresh_matcher_ok "/ws"))).
Defined.

Lemma GetInitialFiles_lists_unignored_witness :
  Forall (λ f, gitignore.ShouldIgnore
                 (watcher.matcher (example.freshWatcher example.dotRoot)) f
               = Done false)
    ["/home/u/.dotfiles/notes.txt"].
Proof.
  apply (GetInitialFiles_lists_unignored example.dotWorld
           (example.freshWatcher example.dotRoot)).
  - apply fresh_matcher_ok.
  - vm_compute. reflexivity.
Defined.

Lemma watched_set_is_backed_witness :
  ∃ r fw', watcher.Start example.withNodeModules example.mkdir_rmdir
             (example.freshWatcher "/ws") = Done (r, fw') ∧ backed fw'.
Proof.
  exact (watched_set_is_backed example.withNodeModules example.mkdir_rmdir
           (example.freshWatcher "/ws") (fresh_matcher_ok "/ws")
           (fresh_backed "/ws")).
Defined.

Lemma stream_is_append_only_witness :
  ∃ r fw', watcher.Start example.withNodeModules example.mkdir_rmdir
             (example.freshWatcher "/ws") = Done (r, fw') ∧
    extends (example.freshWatcher "/ws") fw' ∧ watcher.done fw' = false.
Proof.
  exact (stream_is_append_only example.withNodeModules example.mkdir_rmdir
           (example.freshWatcher "/ws") (fresh_matcher_ok "/ws")).
Defined.

Lemma eventLoop_sequencing_witness :
  watcher.eventLoop (example.mkdir_rmdir ++ watcher.Cancel :: example.mkdir_rmdir)
    (example.freshWatcher "/ws")
  = watcher.eventLoop example.mkdir_rmdir (example.freshWatcher "/ws").
Proof.
  apply (proj1 (eventLoop_sequencing example.mkdir_rmdir example.mkdir_rmdir
                  (example.freshWatcher "/ws"))).
  reflexivity.
Defined.

Lemma table_counts_accepted_calls_witness :
  balanced
    (consumer.processFileEvents
       [consumer.Event example.noFiles
          {| watcher.Path := "/ws/a.txt";
             watcher.EventType := watcher.EventDelete |}]
       (server.registerAll example.noFiles ["/ws/a.txt"; "/ws/b.txt"]
          (example.serverWith example.accept ∅))).
Proof.
  apply table_counts_accepted_calls, fresh_balanced.
Defined.

Lemma create_then_delete_event_witness :
  server.registeredFiles
    (server.handleFileEvent example.noFiles
       {| watcher.Path := "/ws/a.txt"; watcher.EventType := watcher.EventDelete |}
       (server.handleFileEvent example.noFiles
          {| watcher.Path := "/ws/a.txt";
             watcher.EventType := watcher.EventCreate |}
          (example.serverWith example.accept ∅))) = ∅.
Proof.
  refine (proj1 (create_then_delete_event example.noFiles example.noFiles
                   "/ws/a.txt" (example.serverWith example.accept ∅) _ _)).
  - reflexivity.
  - intros l c. reflexivity.
Defined.

Lemma registerExistingFiles_outcome_witness :
  ∃ s', server.registerExistingFiles
          (example.onlyDir "/ws" (os.Dir None [("notes.txt", os.File)]))
          (example.serverWith example.accept ∅) = Done (None, s') ∧
    mapget (server.registeredFiles s') "/ws/notes.txt" = true.
Proof.
  destruct (registerExistingFiles_outcome
              (example.onlyDir "/ws" (os.Dir None [("notes.txt", os.File)]))
              (example.serverWith example.accept ∅) (fresh_matcher_ok "/ws"))
    as (files & s' & Hfiles & E & _ & _ & Hall).
  exists s'. split; [exact E|]. apply Hall.
  - intros l c. reflexivity.
  - vm_compute in Hfiles. injection Hfiles as <-. set_solver.
Defined.

Lemma ignored_paths_never_registered_witness :
  ∃ s1 r fw,
    server.registerExistingFiles example.withNodeModules
      (example.serverWith example.accept ∅) = Done (None, s1) ∧
    watcher.Start example.withNodeModules example.mkdir_rmdir
      (example.freshWatcher "/ws") = Done (r, fw) ∧
    ∀ deliveries,
      (∀ w' ev, consumer.Event w' ev ∈ deliveries → ev ∈ watcher.events fw) →
      ∀ p, mapget (server.registeredFiles
                     (consumer.processFileEvents deliveries s1)) p = true →
           gitignore.ShouldIgnore
             (watcher.matcher (example.freshWatcher "/ws")) p = Done false.
Proof.
  exact (ignored_paths_never_registered example.noFiles (inl example.accept)
           "/ws" false (example.freshWatcher "/ws") example.withNodeModules
           example.withNodeModules example.mkdir_rmdir
           (example.serverWith example.accept ∅) eq_refl eq_refl eq_refl).
Defined.

Lemma absolute_paths_keep_their_URI_witness :
  resources.GetFileURI example.noFiles "/ws/sub/../notes.txt"
  = "file:///ws/notes.txt".
Proof.
  exact (proj1 (absolute_paths_keep_their_URI example.noFiles example.noFiles
                  "/ws/sub/../notes.txt" (example.serverWith example.accept ∅)
                  eq_refl)).
Defined.

Lemma getFileMIMEType_never_empty_witness :
  @mimetype.getFileMIMEType example_mime.libs "/ws/README.MD" = "text/plain" ∧
  @mimetype.getFileMIMEType example_mime.libs "/ws/index.html"
    = "text/html; charset=utf-8".
Proof.
  split.
  - refine (proj2 (proj2 (@getFileMIMEType_never_empty example_mime.libs
                            "/ws/README.MD")) _).
    reflexivity.
  - refine (proj1 (proj2 (@getFileMIMEType_never_empty example_mime.libs
                            "/ws/index.html")) _).
    discriminate.
Defined.

Lemma GetInitialFiles_is_listed_witness :
  watcher.GetInitialFiles example.dotWorld (example.freshWatcher example.dotRoot)
  = Done (inl ["/home/u/.dotfiles/notes.txt"]).
Proof.
  exact (GetInitialFiles_is_listed example.dotWorld
           (example.freshWatcher example.dotRoot)
           (fresh_matcher_ok example.dotRoot)).
Defined.

Lemma scan_watches_every_directory_witness :
  ∃ fw', watcher.scanWorkspace example.withNodeModules
           (example.freshWatcher "/ws") = Done (None, fw') ∧
    mapget (watcher.watchedDirs fw') "/ws/node_modules" = true.
Proof.
  destruct (scan_watches_every_directory example.withNodeModules
              (example.freshWatcher "/ws") (fresh_matcher_ok "/ws"))
    as (fw' & E & Hw);
    try reflexivity; try (intros l c; reflexivity).
  exists fw'. split; [exact E|]. apply Hw. vm_compute. set_solver.
Defined.

Lemma new_directory_is_watched_recursively_witness :
  ∃ fw', watcher.handleFsEvent
           (example.onlyDir "/ws/d" (os.Dir None [("sub", os.Dir None [])]))
           false (example.create "/ws/d") (example.freshWatcher "/ws")
         = Done (tt, fw') ∧
    mapget (watcher.watchedDirs fw') "/ws/d/sub" = true.
Proof.
  destruct (new_directory_is_watched_recursively
              (example.onlyDir "/ws/d" (os.Dir None [("sub", os.Dir None [])]))
              false (example.create "/ws/d") walking.dirInfo
              (example.freshWatcher "/ws") (fresh_matcher_ok "/ws"))
    as (fw' & E & _ & Hw & _);
    try reflexivity; try (intros l c; reflexivity).
  exists fw'. split; [exact E|]. apply Hw. vm_compute. set_solver.
Defined.
